(** * Createshop: field validation, row-level policies, auth form and feed

    A shallow embedding of the parts of the Createshop repository that its
    specification talks about:

    - [src/lib/validation.ts]: the three Zod string schemas;
    - the initial SQL migration: tables [profiles], [posts], [friendships],
      their row-level-security policies and the [handle_new_user] trigger;
    - the zustand auth store ([useAuthStore]);
    - the [Auth] form component (failure counter and lockout);
    - the [Home] component ([fetchPosts], [createPost]);
    - the [Profile] component and the private routes of [App].

    JavaScript strings are sequences of UTF-16 code units, SQL values are
    nullable and SQL conditions are three-valued. *)

From Stdlib Require Import ZArith NArith List String Ascii Bool Lia.
From Stdlib Require Import Sorting.Sorted Sorting.Permutation.
From stdpp Require Import base option list strings gmap.

Local Open Scope N_scope.

(** ** JavaScript strings *)

Module Js.

(** A JavaScript string is a sequence of UTF-16 code units; [length] is the
    [.length] property. *)
Definition jsstring := list N.

(** Literals of the source are ASCII: one code unit per character. *)
Definition lit (s : string) : jsstring :=
  List.map N_of_ascii (list_ascii_of_string s).

End Js.

(** ** Regular expressions, as far as the sources use them *)

Module Regex.
Import Js.

(** A character class [[...]] or [[^...]]: a list of inclusive ranges of
    code units and a negation flag. *)
Record cls := Cls { cls_neg : bool; cls_ranges : list (N * N) }.

Definition in_range (c : N) (r : N * N) : bool := (fst r <=? c) && (c <=? snd r).
Definition in_ranges (rs : list (N * N)) (c : N) : bool := existsb (in_range c) rs.

(** Case folding of the [i] flag.  Without the [u] flag a code unit >= 128
    never folds to an ASCII one, so for classes made of ASCII ranges only the
    ASCII letters are concerned. *)
Definition toggle_case (c : N) : N :=
  if (65 <=? c) && (c <=? 90) then c + 32
  else if (97 <=? c) && (c <=? 122) then c - 32
  else c.

Definition cls_match (ignore_case : bool) (k : cls) (c : N) : bool :=
  xorb (cls_neg k)
       (in_ranges (cls_ranges k) c
        || (ignore_case && in_ranges (cls_ranges k) (toggle_case c))).

(** Pattern bodies. [And] and [Not] are not JavaScript syntax: they carry the
    negative lookaheads that follow a leading [^]. *)
Inductive re :=
| Void
| Eps
| Set_ (k : cls)
| Cat (a b : re)
| Alt (a b : re)
| Star (a : re)
| And (a b : re)
| Not (a : re).

Definition Any : re := Set_ (Cls true []).
Definition Chr (c : N) : re := Set_ (Cls false [(c, c)]).
Definition Plus (a : re) : re := Cat a (Star a).
(** [a{2,}] *)
Definition AtLeast2 (a : re) : re := Cat a (Cat a (Star a)).
(** [.] : any code unit but a line terminator. *)
Definition Dot : re := Set_ (Cls true [(10, 10); (13, 13); (8232, 8233)]).

Section Matching.
Variable ignore_case : bool.

Fixpoint nullable (r : re) : bool :=
  match r with
  | Void => false
  | Eps => true
  | Set_ _ => false
  | Cat a b => nullable a && nullable b
  | Alt a b => nullable a || nullable b
  | Star _ => true
  | And a b => nullable a && nullable b
  | Not a => negb (nullable a)
  end.

Fixpoint deriv (c : N) (r : re) : re :=
  match r with
  | Void => Void
  | Eps => Void
  | Set_ k => if cls_match ignore_case k c then Eps else Void
  | Cat a b =>
      Alt (Cat (deriv c a) b) (if nullable a then deriv c b else Void)
  | Alt a b => Alt (deriv c a) (deriv c b)
  | Star a => Cat (deriv c a) (Star a)
  | And a b => And (deriv c a) (deriv c b)
  | Not a => Not (deriv c a)
  end.

Fixpoint matches (r : re) (s : jsstring) : bool :=
  match s with
  | [] => nullable r
  | c :: s' => matches (deriv c r) s'
  end.

(** The language of a pattern body. *)
Inductive star (P : jsstring -> Prop) : jsstring -> Prop :=
| star_nil : star P []
| star_app s1 s2 : P s1 -> star P s2 -> star P (s1 ++ s2).

Fixpoint lang (r : re) (s : jsstring) : Prop :=
  match r with
  | Void => False
  | Eps => s = []
  | Set_ k => exists c, s = [c] /\ cls_match ignore_case k c = true
  | Cat a b => exists s1 s2, s = s1 ++ s2 /\ lang a s1 /\ lang b s2
  | Alt a b => lang a s \/ lang b s
  | Star a => star (lang a) s
  | And a b => lang a s /\ lang b s
  | Not a => ~ lang a s
  end.
End Matching.

(** A regular expression literal [/.../flags] as the sources write them: an
    optional leading [^], negative lookaheads right after it, a body, an
    optional trailing [$] (no [m] flag: [^] and [$] are the ends of the
    input), and the [i] flag. *)
Record regexp := RegExp {
  re_start : bool;
  re_not_ahead : list re;
  re_body : re;
  re_end : bool;
  re_ignore_case : bool
}.

(** [(?!a)] at the start: no prefix of the input matches [a]. *)
Definition not_ahead (a : re) (r : re) : re := And (Not (Cat a (Star Any))) r.

Definition compile (p : regexp) : re :=
  let tail := Cat (re_body p) (if re_end p then Eps else Star Any) in
  let guarded := fold_right not_ahead tail (re_not_ahead p) in
  if re_start p then guarded else Cat (Star Any) guarded.

(** [RegExp.prototype.test]: is there a match somewhere in the input. *)
Definition test (p : regexp) (s : jsstring) : bool :=
  matches (re_ignore_case p) (compile p) s.

(** [/[...]/]: an unanchored search for one character of a class. *)
Definition search_class (k : cls) : regexp := RegExp false [] (Set_ k) false false.

End Regex.

(** ** Zod string schemas *)

Module Zod.
Import Js Regex.

(** The checks of [ZodString] that [validation.ts] uses, each with the
    message given at the call. *)
Inductive check :=
| Min (value : nat) (message : string)
| Max (value : nat) (message : string)
| Length (value : nat) (message : string)
| Email (message : string)
| RegexCheck (regex : regexp) (message : string).

Definition message (c : check) : string :=
  match c with
  | Min _ m | Max _ m | Length _ m | Email m | RegexCheck _ m => m
  end.

Definition ZodString := list check.

(** [z.string()] and the chained builders: each appends one check. *)
Definition z_string : ZodString := [].
Definition min (value : nat) (msg : string) (s : ZodString) : ZodString := s ++ [Min value msg].
Definition max (value : nat) (msg : string) (s : ZodString) : ZodString := s ++ [Max value msg].
Definition length_ (value : nat) (msg : string) (s : ZodString) : ZodString := s ++ [Length value msg].
Definition email (msg : string) (s : ZodString) : ZodString := s ++ [Email msg].
Definition regex (r : regexp) (msg : string) (s : ZodString) : ZodString := s ++ [RegexCheck r msg].

Section Parse.
(** Zod's internal [emailRegex] constant differs between releases of the
    library; the schema code does not depend on which one is installed. *)
Variable emailRegex : regexp.

(** [ZodString._parse]: the condition under which a check adds an issue. *)
Definition violated (data : jsstring) (c : check) : bool :=
  match c with
  | Min value _ => Nat.ltb (length data) value
  | Max value _ => Nat.ltb value (length data)
  | Length value _ => negb (Nat.eqb (length data) value)
  | Email _ => negb (test emailRegex data)
  | RegexCheck r _ => negb (test r data)
  end.

(** All checks run, in the order of the chain; every violated one
    contributes its message. *)
Definition issues (schema : ZodString) (data : jsstring) : list string :=
  List.map message (List.filter (violated data) schema).

(** [{ success: true, data }] or [{ success: false, error }]; [error.errors]
    is never empty, [first] is [error.errors[0].message]. *)
Inductive SafeParseReturn :=
| Success (data : jsstring)
| Failure (first : string) (rest : list string).

Definition safeParse (schema : ZodString) (data : jsstring) : SafeParseReturn :=
  match issues schema data with
  | [] => Success data
  | first :: rest => Failure first rest
  end.

Definition success (r : SafeParseReturn) : bool :=
  match r with Success _ => true | Failure _ _ => false end.
End Parse.

(** The email pattern of Zod 3.23, flag [i], between [^] and [$]:
    two negative lookaheads (no leading dot; no two dots in a row anywhere),
    a local part of characters from [A-Z0-9_'+-.] ending in one from
    [A-Z0-9_+-], an [@], one or more labels (first character from [A-Z0-9],
    then any from [A-Z0-9-], then a dot) and at least two letters [A-Z]. *)
Definition AZ : N * N := (65, 90).
Definition d09 : N * N := (48, 57).
Definition one (c : N) : N * N := (c, c).
Definition dot_ : N := 46.

Definition emailRegex_3_23 : regexp :=
  let local_chars := Set_ (Cls false [AZ; d09; one 95; one 39; one 43; one 45; one dot_]) in
  let local_last := Set_ (Cls false [AZ; d09; one 95; one 43; one 45]) in
  let label_first := Set_ (Cls false [AZ; d09]) in
  let label_rest := Set_ (Cls false [AZ; d09; one 45]) in
  let letter := Set_ (Cls false [AZ]) in
  {| re_start := true;
     re_not_ahead := [Chr dot_; Cat (Star Dot) (Cat (Chr dot_) (Chr dot_))];
     re_body :=
       Cat (Star local_chars)
        (Cat local_last
          (Cat (Chr 64)
            (Cat (Plus (Cat label_first (Cat (Star label_rest) (Chr dot_))))
                 (AtLeast2 letter))));
     re_end := true;
     re_ignore_case := true |}.

End Zod.

(** ** src/lib/validation.ts *)

Module Validation.
Import Js Regex Zod.

Notation "s '|>' f" := (f s) (at level 45, left associativity, only parsing).

(** [/[A-Z]/], [/[a-z]/], [/[0-9]/], [/[^A-Za-z0-9]/] *)
Definition re_upper : regexp := search_class (Cls false [(65, 90)]).
Definition re_lower : regexp := search_class (Cls false [(97, 122)]).
Definition re_digit : regexp := search_class (Cls false [(48, 57)]).
Definition re_special : regexp :=
  search_class (Cls true [(65, 90); (97, 122); (48, 57)]).

(** [/^\d+$/] *)
Definition re_digits_only : regexp :=
  RegExp true [] (Plus (Set_ (Cls false [(48, 57)]))) true false.

Definition passwordSchema : ZodString :=
  z_string
  |> min 8 "Password must be at least 8 characters"
  |> regex re_upper "Password must contain at least one uppercase letter"
  |> regex re_lower "Password must contain at least one lowercase letter"
  |> regex re_digit "Password must contain at least one number"
  |> regex re_special "Password must contain at least one special character".

Definition emailSchema : ZodString :=
  z_string
  |> email "Please enter a valid email address"
  |> min 5 "Email must be at least 5 characters"
  |> max 64 "Email must not exceed 64 characters".

Definition verificationCodeSchema : ZodString :=
  z_string
  |> length_ 6 "Verification code must be 6 digits"
  |> regex re_digits_only "Verification code must contain only numbers".

(** A validator accepts an input when [safeParse] succeeds. *)
Definition accepts (emailRegex : regexp) (schema : ZodString) (s : jsstring) : bool :=
  success (safeParse emailRegex schema s).

End Validation.

(** ** SQL values and conditions *)

Module Sql.

(** A condition is TRUE, FALSE or NULL. *)
Definition sqlbool := option bool.

Definition and3 (a b : sqlbool) : sqlbool :=
  match a, b with
  | Some false, _ | _, Some false => Some false
  | Some true, Some true => Some true
  | _, _ => None
  end.

Definition or3 (a b : sqlbool) : sqlbool :=
  match a, b with
  | Some true, _ | _, Some true => Some true
  | Some false, Some false => Some false
  | _, _ => None
  end.

(** [x = y] on nullable values. *)
Definition eq3 {A} `{EqDecision A} (x y : option A) : sqlbool :=
  match x, y with
  | Some a, Some b => Some (bool_decide (a = b))
  | _, _ => None
  end.

(** [x IN (y1, ..., yn)] *)
Definition in3 {A} `{EqDecision A} (x : option A) (ys : list (option A)) : sqlbool :=
  fold_right (fun y acc => or3 (eq3 x y) acc) (Some false) ys.

(** A WHERE clause, a USING clause and a WITH CHECK clause let a row through
    only when the condition is TRUE. *)
Definition holds (c : sqlbool) : bool :=
  match c with Some true => true | _ => false end.

(** A CHECK constraint is violated only when the condition is FALSE. *)
Definition check_passes (c : sqlbool) : bool :=
  match c with Some false => false | _ => true end.

(** [EXISTS (SELECT 1 FROM rows WHERE cond)]: never NULL. *)
Definition exists3 {A} (rows : list A) (cond : A -> sqlbool) : sqlbool :=
  Some (existsb (fun r => holds (cond r)) rows).

Inductive sql_error :=
| not_null_violation (column : string)
| unique_violation (constraint : string)
| check_violation (constraint : string)
| foreign_key_violation (constraint : string)
| rls_violation (table : string).

Inductive outcome (A : Type) :=
| Ok (a : A)
| Err (e : sql_error).
Arguments Ok {A} a.
Arguments Err {A} e.

Definition uuid := N.
Definition timestamptz := Z.

(** jsonb values. *)
#[warnings="-register-all"]
Inductive json :=
| JNull
| JBool (b : bool)
| JNumber (n : Z)
| JString (s : string)
| JArray (items : list json)
| JObject (fields : list (string * json)).

Fixpoint assoc (key : string) (fields : list (string * json)) : option json :=
  match fields with
  | [] => None
  | (k, v) :: rest => if bool_decide (k = key) then Some v else assoc key rest
  end.

End Sql.

(** ** The schema of the initial migration *)

Module Profiles.
Import Sql.

Record row := Row {
  id : uuid;                          (* PRIMARY KEY REFERENCES auth.users *)
  username : string;                  (* UNIQUE NOT NULL *)
  full_name : option string;
  avatar_url : option string;
  bio : option string;
  created_at : option timestamptz;    (* DEFAULT now() *)
  updated_at : option timestamptz     (* DEFAULT now() *)
}.

(** "Public profiles are viewable by everyone" *)
Definition select_using (uid : option uuid) (r : row) : sqlbool := Some true.

(** "Users can update own profile" *)
Definition update_using (uid : option uuid) (r : row) : sqlbool :=
  eq3 uid (Some (id r)).

End Profiles.

Module Friendships.
Import Sql.

Record row := Row {
  id : uuid;                          (* PRIMARY KEY *)
  sender_id : uuid;                   (* REFERENCES profiles, NOT NULL *)
  receiver_id : uuid;                 (* REFERENCES profiles, NOT NULL *)
  status : option string;             (* DEFAULT 'pending', CHECK below *)
  created_at : option timestamptz;
  updated_at : option timestamptz
}.

(** [CHECK (status IN ('pending', 'accepted', 'rejected'))] *)
Definition status_check (r : row) : bool :=
  check_passes (in3 (status r) [Some "pending"; Some "accepted"; Some "rejected"]%string).

(** "Users can view their own friendships" *)
Definition select_using (uid : option uuid) (r : row) : sqlbool :=
  in3 uid [Some (sender_id r); Some (receiver_id r)].

(** "Users can create friendship requests" *)
Definition insert_check (uid : option uuid) (r : row) : sqlbool :=
  eq3 uid (Some (sender_id r)).

(** "Users can update friendship status": a USING clause and no WITH CHECK
    clause, so the same condition is also applied to the updated row. *)
Definition update_using (uid : option uuid) (r : row) : sqlbool :=
  in3 uid [Some (sender_id r); Some (receiver_id r)].
Definition update_check (uid : option uuid) (r : row) : sqlbool :=
  update_using uid r.

(** The SET list of an UPDATE: [None] leaves the column alone. *)
Record assignment := Assign {
  set_id : option uuid;
  set_sender_id : option uuid;
  set_receiver_id : option uuid;
  set_status : option (option string);
  set_created_at : option (option timestamptz);
  set_updated_at : option (option timestamptz)
}.

Definition no_change : assignment := Assign None None None None None None.

(** [SET status = s] *)
Definition only_status (s : string) : assignment :=
  Assign None None None (Some (Some s)) None None.

Definition apply (a : assignment) (r : row) : row :=
  {| id := default (id r) (set_id a);
     sender_id := default (sender_id r) (set_sender_id a);
     receiver_id := default (receiver_id r) (set_receiver_id a);
     status := default (status r) (set_status a);
     created_at := default (created_at r) (set_created_at a);
     updated_at := default (updated_at r) (set_updated_at a) |}.

(** PRIMARY KEY (id), UNIQUE (sender_id, receiver_id), the CHECK on status. *)
Definition constraint_error (t : list row) : option sql_error :=
  if negb (forallb status_check t) then Some (check_violation "friendships_status_check")
  else if negb (bool_decide (NoDup (List.map id t))) then Some (unique_violation "friendships_pkey")
  else if negb (bool_decide (NoDup (List.map (fun r => (sender_id r, receiver_id r)) t)))
       then Some (unique_violation "friendships_sender_id_receiver_id_key")
  else None.

End Friendships.

Module Posts.
Import Sql.

Record row := Row {
  id : uuid;                          (* PRIMARY KEY *)
  user_id : uuid;                     (* REFERENCES profiles, NOT NULL *)
  content : string;                   (* NOT NULL *)
  image_url : option string;
  privacy : option string;            (* DEFAULT 'public', CHECK below *)
  created_at : option timestamptz;    (* DEFAULT now() *)
  updated_at : option timestamptz
}.

(** [CHECK (privacy IN ('public', 'friends', 'private'))] *)
Definition privacy_check (r : row) : bool :=
  check_passes (in3 (privacy r) [Some "public"; Some "friends"; Some "private"]%string).

(** "Public posts are viewable by everyone".  [friendships] is what the
    sub-select sees of that table. *)
Definition select_using (uid : option uuid) (friendships : list Friendships.row)
    (r : row) : sqlbool :=
  or3 (eq3 (privacy r) (Some "public"%string))
   (or3 (eq3 (Some (user_id r)) uid)
     (and3 (eq3 (privacy r) (Some "friends"%string))
       (exists3 friendships (fun f =>
          and3
            (or3 (and3 (eq3 (Some (Friendships.sender_id f)) uid)
                       (eq3 (Some (Friendships.receiver_id f)) (Some (user_id r))))
                 (and3 (eq3 (Some (Friendships.receiver_id f)) uid)
                       (eq3 (Some (Friendships.sender_id f)) (Some (user_id r)))))
            (eq3 (Friendships.status f) (Some "accepted"%string)))))).

(** "Users can create posts" *)
Definition insert_check (uid : option uuid) (r : row) : sqlbool :=
  eq3 uid (Some (user_id r)).

(** "Users can update own posts" *)
Definition update_using (uid : option uuid) (r : row) : sqlbool :=
  eq3 uid (Some (user_id r)).

End Posts.

(** [auth.users], the table of the identity service; only the columns the
    trigger reads. *)
Module AuthUsers.
Import Sql.

Record row := Row {
  id : uuid;                            (* PRIMARY KEY *)
  email : option string;
  raw_user_meta_data : option json
}.

End AuthUsers.

(** ** The database: statements under row-level security *)

Module Database.
Import Sql.

Record db := Db {
  auth_users : list AuthUsers.row;
  profiles : list Profiles.row;
  posts : list Posts.row;
  friendships : list Friendships.row
}.

Definition with_friendships (t : list Friendships.row) (d : db) : db :=
  Db (auth_users d) (profiles d) (posts d) t.
Definition with_profiles (t : list Profiles.row) (d : db) : db :=
  Db (auth_users d) t (posts d) (friendships d).
Definition with_auth_users (t : list AuthUsers.row) (d : db) : db :=
  Db t (profiles d) (posts d) (friendships d).

(** Row-level security is enabled on [friendships] too: a sub-select in a
    policy of another table sees only the rows its SELECT policy lets the
    requester see. *)
Definition visible_friendships (uid : option uuid) (d : db) : list Friendships.row :=
  List.filter (fun f => holds (Friendships.select_using uid f)) (friendships d).

(** Is a [posts] row returned to the requester [uid] (NULL when there is no
    signed-in identity). *)
Definition post_visible (uid : option uuid) (d : db) (r : Posts.row) : bool :=
  holds (Posts.select_using uid (visible_friendships uid d) r).

(** [SELECT ... FROM posts] *)
Definition select_posts (uid : option uuid) (d : db) : list Posts.row :=
  List.filter (post_visible uid d) (posts d).

(** The two foreign keys of [friendships]. *)
Definition friendships_fk_error (d : db) (r : Friendships.row) : option sql_error :=
  let ids := List.map Profiles.id (profiles d) in
  if negb (bool_decide (Friendships.sender_id r ∈ ids))
  then Some (foreign_key_violation "friendships_sender_id_fkey")
  else if negb (bool_decide (Friendships.receiver_id r ∈ ids))
  then Some (foreign_key_violation "friendships_receiver_id_fkey")
  else None.

Fixpoint first_error (es : list (option sql_error)) : option sql_error :=
  match es with
  | [] => None
  | Some e :: _ => Some e
  | None :: rest => first_error rest
  end.

(** [INSERT INTO friendships VALUES (new)] by the requester [uid]. *)
Definition insert_friendship (uid : option uuid) (new : Friendships.row) (d : db)
    : outcome db :=
  if negb (holds (Friendships.insert_check uid new)) then Err (rls_violation "friendships")
  else
    let t := friendships d ++ [new] in
    match Friendships.constraint_error t with
    | Some e => Err e
    | None =>
        match friendships_fk_error d new with
        | Some e => Err e
        | None => Ok (with_friendships t d)
        end
    end.

(** [UPDATE friendships SET a WHERE id = target] by the requester [uid].
    Rows the USING clause does not let through are skipped silently; an
    updated row that fails the check aborts the statement. *)
Definition touched (uid : option uuid) (target : uuid) (r : Friendships.row) : bool :=
  bool_decide (Friendships.id r = target) && holds (Friendships.update_using uid r).

Definition update_friendships (uid : option uuid) (target : uuid)
    (a : Friendships.assignment) (d : db) : outcome db :=
  let t := List.map (fun r => if touched uid target r then Friendships.apply a r else r)
                    (friendships d) in
  if negb (forallb (fun r => implb (touched uid target r)
                       (holds (Friendships.update_check uid (Friendships.apply a r))))
                   (friendships d))
  then Err (rls_violation "friendships")
  else
    match Friendships.constraint_error t with
    | Some e => Err e
    | None =>
        match first_error (List.map (friendships_fk_error d) t) with
        | Some e => Err e
        | None => Ok (with_friendships t d)
        end
    end.

Section Trigger.
(** The text form of a jsonb value that is neither a string nor null
    (PostgreSQL's output function). *)
Variable jsonb_out : json -> string.

(** [j ->> key] *)
Definition json_get_text (j : option json) (key : string) : option string :=
  match j with
  | Some (JObject fields) =>
      match assoc key fields with
      | None | Some JNull => None
      | Some (JString s) => Some s
      | Some v => Some (jsonb_out v)
      end
  | _ => None
  end.

(** [INSERT INTO public.profiles (id, username, full_name) VALUES (...)],
    run by a SECURITY DEFINER function: no policy is consulted, the
    constraints of the table are. *)
Definition insert_profile_definer (now : timestamptz) (new_id : uuid)
    (new_username new_full_name : option string) (d : db) : outcome db :=
  match new_username with
  | None => Err (not_null_violation "username")
  | Some name =>
      if bool_decide (new_id ∈ List.map Profiles.id (profiles d))
      then Err (unique_violation "profiles_pkey")
      else if bool_decide (name ∈ List.map Profiles.username (profiles d))
      then Err (unique_violation "profiles_username_key")
      else if negb (bool_decide (new_id ∈ List.map AuthUsers.id (auth_users d)))
      then Err (foreign_key_violation "profiles_id_fkey")
      else
        Ok (with_profiles
              (profiles d ++
               [Profiles.Row new_id name new_full_name None None (Some now) (Some now)])
              d)
  end.

(** [public.handle_new_user()] *)
Definition handle_new_user (now : timestamptz) (new : AuthUsers.row) (d : db)
    : outcome db :=
  insert_profile_definer now
    (AuthUsers.id new)
    (AuthUsers.email new)
    (json_get_text (AuthUsers.raw_user_meta_data new) "full_name")
    d.

(** [INSERT INTO auth.users VALUES (new)] with the trigger
    [on_auth_user_created] (AFTER INSERT, FOR EACH ROW): the trigger runs
    inside the inserting statement, and its error is the statement's. *)
Definition insert_auth_user (now : timestamptz) (new : AuthUsers.row) (d : db)
    : outcome db :=
  if bool_decide (AuthUsers.id new ∈ List.map AuthUsers.id (auth_users d))
  then Err (unique_violation "users_pkey")
  else handle_new_user now new (with_auth_users (auth_users d ++ [new]) d).
End Trigger.

End Database.

(** ** The auth store (zustand) *)

Module AuthStore.
Import Sql.

(** What a [catch] block can receive: an [Error] with its message, or some
    other value. *)
Inductive thrown :=
| ErrorOf (message : string)
| NotAnError.

Record User := { user_id : uuid; user_email : option string }.
Record Session := { session_user : User }.

Record AuthState := {
  user : option User;
  loading : bool;
  verificationSent : bool
}.

(** The store as [create] builds it. *)
Definition initial : AuthState :=
  {| user := None; loading := true; verificationSent := false |}.

(** [set({ verificationSent: v })], [set({ user: u })]: a partial update is
    merged into the state. *)
Definition set_verificationSent (v : bool) (s : AuthState) : AuthState :=
  {| user := user s; loading := loading s; verificationSent := v |}.
Definition set_user (u : option User) (s : AuthState) : AuthState :=
  {| user := u; loading := loading s; verificationSent := verificationSent s |}.

(** What an awaited [supabase.auth.*] call resolved to: its [error] field. *)
Definition response := option thrown.

(** An async action: either it resolves, or it rejects with the error. *)
Definition action := response -> AuthState -> (unit + thrown) * AuthState.

Definition signIn : action := fun resp s =>
  match resp with
  | Some error => (inr error, s)
  | None => (inl tt, s)
  end.

Definition signUp : action := fun resp s =>
  match resp with
  | Some error => (inr error, s)
  | None => (inl tt, set_verificationSent true s)
  end.

Definition signOut : action := fun resp s =>
  match resp with
  | Some error => (inr error, s)
  | None => (inl tt, set_user None s)
  end.

Definition resetPassword : action := fun resp s =>
  match resp with
  | Some error => (inr error, s)
  | None => (inl tt, s)
  end.

Definition verifyOtp : action := fun resp s =>
  match resp with
  | Some error => (inr error, s)
  | None => (inl tt, s)
  end.

Definition resendVerification : action := fun resp s =>
  match resp with
  | Some error => (inr error, s)
  | None => (inl tt, set_verificationSent true s)
  end.

(** The listener registered with [supabase.auth.onAuthStateChange]:
    [setState({ user: session?.user || null, loading: false })]. *)
Definition onAuthStateChange (session : option Session) (s : AuthState) : AuthState :=
  {| user := session_user <$> session;
     loading := false;
     verificationSent := verificationSent s |}.

End AuthStore.

(** ** The Auth form component *)

Module AuthForm.
Import Js Regex Zod Validation AuthStore.
Local Open Scope Z_scope.

Inductive AuthMode := login | register | verify | reset.

(** The text handed to [setError]: a fixed text, or the countdown template
    [`Too many attempts. Please try again in ${seconds} seconds`]. *)
Inductive notice :=
| Text (s : string)
| TryAgainInSeconds (seconds : Z).

(** The contents of the controlled inputs. *)
Record inputs := {
  email : jsstring;
  password : jsstring;
  confirmPassword : jsstring;
  verificationCode : jsstring;
  rememberMe : bool
}.

(** The [useState] cells of the component; [path] is where [navigate] went.
    Times are milliseconds since the epoch. *)
Record state := {
  mode : AuthMode;
  fields : inputs;
  loading : bool;
  error : option notice;
  success : option string;
  attempts : Z;
  lockoutUntil : option Z;
  path : option string
}.

Definition empty_inputs : inputs := Build_inputs [] [] [] [] false.

Definition initial : state :=
  {| mode := login; fields := empty_inputs; loading := false; error := None;
     success := None; attempts := 0; lockoutUntil := None; path := None |}.

Definition setMode (m : AuthMode) (s : state) : state :=
  Build_state m (fields s) (loading s) (error s) (success s) (attempts s) (lockoutUntil s) (path s).
Definition setFields (i : inputs) (s : state) : state :=
  Build_state (mode s) i (loading s) (error s) (success s) (attempts s) (lockoutUntil s) (path s).
Definition setLoading (b : bool) (s : state) : state :=
  Build_state (mode s) (fields s) b (error s) (success s) (attempts s) (lockoutUntil s) (path s).
Definition setError (e : option notice) (s : state) : state :=
  Build_state (mode s) (fields s) (loading s) e (success s) (attempts s) (lockoutUntil s) (path s).
Definition setSuccess (m : option string) (s : state) : state :=
  Build_state (mode s) (fields s) (loading s) (error s) m (attempts s) (lockoutUntil s) (path s).
(** [setAttempts] takes the updater form [prev => ...]. *)
Definition setAttempts (f : Z -> Z) (s : state) : state :=
  Build_state (mode s) (fields s) (loading s) (error s) (success s) (f (attempts s)) (lockoutUntil s) (path s).
Definition setLockoutUntil (t : option Z) (s : state) : state :=
  Build_state (mode s) (fields s) (loading s) (error s) (success s) (attempts s) t (path s).
Definition navigate (p : string) (s : state) : state :=
  Build_state (mode s) (fields s) (loading s) (error s) (success s) (attempts s) (lockoutUntil s) (Some p).

(** The component together with the store it uses. *)
Record world := { form : state; store : AuthState }.

(** Handlers thread the world and may throw. *)
Definition M (A : Type) := world -> (A + thrown) * world.

Definition ret {A} (a : A) : M A := fun w => (inl a, w).
Definition throw {A} (e : thrown) : M A := fun w => (inr e, w).
Definition bind {A B} (m : M A) (k : A -> M B) : M B := fun w =>
  match m w with
  | (inl a, w') => k a w'
  | (inr e, w') => (inr e, w')
  end.
Declare Scope handler_scope.
Delimit Scope handler_scope with handler.
Notation "m1 ;; m2" := (bind m1 (fun _ => m2))
  (at level 100, m2 at level 200, right associativity) : handler_scope.
Local Open Scope handler_scope.

(** A state setter of the component. *)
Definition upd (f : state -> state) : M unit := fun w =>
  (inl tt, {| form := f (form w); store := store w |}).

(** [await action(...)] on the store. *)
Definition await (a : AuthState -> (unit + thrown) * AuthState) : M unit := fun w =>
  let '(r, st) := a (store w) in (r, {| form := form w; store := st |}).

(** [try { body } catch (err) { handler } finally { final }] *)
Definition try_catch_finally (body : M unit) (handler : thrown -> M unit)
    (final : M unit) : M unit := fun w =>
  let '(r, w1) :=
    match body w with
    | (inl x, w1) => (inl x, w1)
    | (inr e, w1) => handler e w1
    end in
  match final w1 with
  | (inl _, w2) => (r, w2)
  | (inr e, w2) => (inr e, w2)
  end.

(** [Math.ceil(ms / 1000)] on an integer number of milliseconds. *)
Definition ceil_seconds (ms : Z) : Z := - ((- ms) / 1000).

Section Handlers.
Variable emailRegex : regexp.

(** [const r = schema.safeParse(v); if (!r.success) throw new Error(r.error.errors[0].message)] *)
Definition validate (schema : ZodString) (value : jsstring) : M unit :=
  match safeParse emailRegex schema value with
  | Success _ => ret tt
  | Failure first _ => throw (ErrorOf first)
  end.

(** [lockoutUntil && new Date() < lockoutUntil] *)
Definition locked_out (now : Z) (s : state) : bool :=
  match lockoutUntil s with
  | Some t => now <? t
  | None => false
  end.

(** The body of the [try] block.  [c] holds the values the handler closed
    over (the state of the render it belongs to), [resp] is what the one
    awaited store call resolves to. *)
Definition try_body (c : state) (resp : response) : M unit :=
  upd (setLoading true) ;;
  validate emailSchema (email (fields c)) ;;
  match mode c with
  | login =>
      validate passwordSchema (password (fields c)) ;;
      await (signIn resp) ;;
      upd (navigate "/")
  | register =>
      validate passwordSchema (password (fields c)) ;;
      (if bool_decide (password (fields c) = confirmPassword (fields c))
       then ret tt
       else throw (ErrorOf "Passwords do not match")) ;;
      await (signUp resp) ;;
      upd (setMode verify) ;;
      upd (setSuccess (Some "Registration successful! Please check your email for verification."%string))
  | verify =>
      validate verificationCodeSchema (verificationCode (fields c)) ;;
      await (verifyOtp resp) ;;
      upd (setSuccess (Some "Email verified successfully! You can now login."%string)) ;;
      upd (setMode login)
  | reset =>
      await (resetPassword resp) ;;
      upd (setSuccess (Some "Password reset instructions have been sent to your email."%string)) ;;
      upd (setMode login)
  end ;;
  upd (setAttempts (fun _ => 0)).

(** The [catch] block; [later] is [Date.now()] there. *)
Definition catch_block (c : state) (later : Z) (err : thrown) : M unit :=
  upd (setAttempts (fun prev => prev + 1)) ;;
  if 4 <=? attempts c
  then
    upd (setLockoutUntil (Some (later + 300000))) ;;
    upd (setError (Some (Text "Too many attempts. Please try again in 5 minutes.")))
  else
    upd (setError (Some (Text match err with
                              | ErrorOf message => message
                              | NotAnError => "An error occurred"
                              end))).

(** How the [try] block of a submission ends: normally, or with a thrown
    value. *)
Definition try_result (resp : response) (w : world) : unit + thrown :=
  fst (try_body (form w) resp w).

(** [handleSubmit]: the clock is read up to three times.  [now] is
    [new Date()] at the lockout test, [shown] is [Date.now()] in the
    countdown message right after it, [later] is [Date.now()] in the catch
    block. *)
Definition handleSubmit (now shown later : Z) (resp : response) (w : world) : world :=
  let c := form w in
  snd ((upd (setError None) ;;
        upd (setSuccess None) ;;
        if locked_out now c
        then
          upd (setError (Some (TryAgainInSeconds
                 (ceil_seconds (default 0 (lockoutUntil c) - shown)))))
        else
          try_catch_finally
            (try_body c resp)
            (catch_block c later)
            (upd (setLoading false))) w).

(** [handleResendVerification] *)
Definition handleResendVerification (resp : response) (w : world) : world :=
  snd (try_catch_finally
         (upd (setLoading true) ;;
          await (resendVerification resp) ;;
          upd (setSuccess (Some "Verification email has been resent!"%string)))
         (fun err =>
            upd (setError (Some (Text match err with
                                      | ErrorOf message => message
                                      | NotAnError => "Failed to resend verification email"
                                      end))))
         (upd (setLoading false)) w).

(** The effect with dependency list [[lockoutUntil]]; [now] is the clock
    when it runs. *)
Definition lockout_effect (now : Z) (s : state) : state :=
  match lockoutUntil s with
  | Some t =>
      if t <? now then setAttempts (fun _ => 0) (setLockoutUntil None s) else s
  | None => s
  end.

(** After a handler, React renders and runs the effect when its dependency
    changed.  The catch block always stores a later time than the one held
    before, so comparing the times tells whether a new [Date] was stored.
    (When the effect itself clears [lockoutUntil] it runs once more, on
    [null], and does nothing.) *)
Definition commit (clock : Z) (before : world) (after : world) : world :=
  if bool_decide (lockoutUntil (form before) = lockoutUntil (form after))
  then after
  else {| form := lockout_effect clock (form after); store := store after |}.

(** What the user can do with the form. *)
Inductive event :=
| Edit (i : inputs)
| ForgotPassword
| ToggleMode
| Submit (now shown later clock : Z) (resp : response)
| Resend (clock : Z) (resp : response).

Definition on_form (f : state -> state) (w : world) : world :=
  {| form := f (form w); store := store w |}.

Definition step (w : world) (e : event) : world :=
  match e with
  | Edit i => on_form (setFields i) w
  | ForgotPassword => on_form (setMode reset) w
  | ToggleMode =>
      on_form (setMode match mode (form w) with login => register | _ => login end) w
  | Submit now shown later clock resp => commit clock w (handleSubmit now shown later resp w)
  | Resend clock resp => commit clock w (handleResendVerification resp w)
  end.

Definition run (w : world) (es : list event) : world := fold_left step es w.
End Handlers.

(** The form right after mounting: the effect has run once on
    [lockoutUntil = null]. *)
Definition mounted : world := {| form := initial; store := AuthStore.initial |}.

End AuthForm.

(** ** The Home component and the feed query *)

Module Home.
Import Sql Database.
Local Open Scope Z_scope.

(** A row of the response: the selected columns and the embedded profile. *)
Record EmbeddedProfile := { username : string; avatar_url : option string }.

Record Post := {
  id : uuid;
  content : string;
  image_url : option string;
  created_at : option timestamptz;
  profiles : option EmbeddedProfile
}.

(** [.order(column, { ascending, nullsFirst })] as sent with the request,
    for the timestamp columns of [posts]; [nullsFirst] may be left out. *)
Inductive order_column := by_created_at | by_updated_at.

Record order := { column : order_column; ascending : bool; nullsFirst : option bool }.

(** The request [fetchPosts] builds:
    [from('posts').select(...).order('created_at', { ascending: false })]. *)
Definition fetchPosts_order : order :=
  {| column := by_created_at; ascending := false; nullsFirst := None |}.

Definition sort_key (o : order) (r : Posts.row) : option timestamptz :=
  match column o with
  | by_created_at => Posts.created_at r
  | by_updated_at => Posts.updated_at r
  end.

(** ORDER BY column ASC|DESC [NULLS FIRST|LAST]: does [a] go before or
    with [b].  PostgreSQL's default puts NULLs first when descending and
    last when ascending. *)
Definition goes_before (o : order) (a b : option timestamptz) : bool :=
  let nulls_first := default (negb (ascending o)) (nullsFirst o) in
  match a, b with
  | None, None => true
  | None, Some _ => nulls_first
  | Some _, None => negb nulls_first
  | Some x, Some y => if ascending o then x <=? y else y <=? x
  end.

(** The sort of the server, as an insertion sort. *)
Fixpoint insert_row (o : order) (r : Posts.row) (l : list Posts.row) : list Posts.row :=
  match l with
  | [] => [r]
  | r' :: l' =>
      if goes_before o (sort_key o r) (sort_key o r')
      then r :: l
      else r' :: insert_row o r l'
  end.

Definition order_by (o : order) (l : list Posts.row) : list Posts.row :=
  fold_right (insert_row o) [] l.

(** [profiles ( username, avatar_url )]: the profile [user_id] refers to. *)
Definition embed_profile (d : db) (r : Posts.row) : option EmbeddedProfile :=
  match List.find (fun p => bool_decide (Profiles.id p = Posts.user_id r)) (Database.profiles d) with
  | Some p => Some {| username := Profiles.username p; avatar_url := Profiles.avatar_url p |}
  | None => None
  end.

Definition project (d : db) (r : Posts.row) : Post :=
  {| id := Posts.id r;
     content := Posts.content r;
     image_url := Posts.image_url r;
     created_at := Posts.created_at r;
     profiles := embed_profile d r |}.

(** [{ data, error }] *)
Record response := { data : option (list Post); error : option string }.

(** The backing service answering the feed request of the requester [uid]:
    a failure of the call ([failure]), or the rows the SELECT policy lets
    through, ordered as requested. *)
Definition serve (failure : option string) (uid : option uuid) (d : db) (o : order)
    : response :=
  match failure with
  | Some e => {| data := None; error := Some e |}
  | None =>
      {| data := Some (List.map (project d) (order_by o (select_posts uid d)));
         error := None |}
  end.

(** The [posts] cell of the component. *)
Definition state := list Post.
Definition initial : state := [].

(** [fetchPosts], given what the awaited request resolved to:
    [if (error) return; setPosts(data || [])]. *)
Definition fetchPosts (r : response) (posts : state) : state :=
  match error r with
  | Some _ => posts
  | None => default [] (data r)
  end.

(** Newest first, for all adjacent posts: both carry a timestamp, and the
    upper one is not older than the lower one. *)
Definition newest_first (posts : list Post) : Prop :=
  forall i p q,
    posts !! i = Some p -> posts !! (S i) = Some q ->
    exists a b, created_at p = Some a /\ created_at q = Some b /\ b <= a.

(** The order of the server for created_at descending with NULLs in their
    default place: the posts without a timestamp first, then newest first. *)
Definition undated_then_newest (posts : list Post) : Prop :=
  forall i p q,
    posts !! i = Some p -> posts !! (S i) = Some q ->
    match created_at p, created_at q with
    | Some a, Some b => b <= a
    | None, _ => True
    | Some _, None => False
    end.

(** What [Home] renders for one post: the avatar image of the author, the
    name, the date, the text and the image if there is one. *)
Record card := {
  card_key : uuid;
  card_avatar : string;
  card_username : string;
  card_date : string;
  card_content : string;
  card_image : option string
}.

(** A string is truthy when it is there and not empty. *)
Definition truthy (x : option string) : bool :=
  match x with
  | Some s => negb (bool_decide (s = ""%string))
  | None => false
  end.

Section Render.
(** [new Date(post.created_at).toLocaleDateString()] *)
Variable toLocaleDateString : option timestamptz -> string.

(** The body of [posts.map]: [None] when it throws.  For an author without
    avatar the placeholder branch evaluates [User], which the Home module
    does not import ([Image] and [Send] are): a ReferenceError.  A null
    [post.profiles] throws as well, on reading [avatar_url]. *)
Definition render_post (p : Post) : option card :=
  match profiles p with
  | None => None
  | Some author =>
      if truthy (avatar_url author)
      then Some {| card_key := id p;
                   card_avatar := default ""%string (avatar_url author);
                   card_username := username author;
                   card_date := toLocaleDateString (created_at p);
                   card_content := content p;
                   card_image := if truthy (image_url p) then image_url p else None |}
      else None
  end.

(** The list part of what [Home] returns: the cards in order, or the first
    exception. *)
Fixpoint render (posts : list Post) : option (list card) :=
  match posts with
  | [] => Some []
  | p :: rest =>
      match render_post p with
      | None => None
      | Some c =>
          match render rest with
          | None => None
          | Some cs => Some (c :: cs)
          end
      end
  end.
End Render.

End Home.

(** ** The words of the specification *)

Module Vocabulary.
Import Sql.

(** Character classes, on code units. *)
Definition uppercase_letter (c : N) : Prop := 65 <= c <= 90.
Definition lowercase_letter (c : N) : Prop := 97 <= c <= 122.
Definition decimal_digit (c : N) : Prop := 48 <= c <= 57.
Definition alphanumeric (c : N) : Prop :=
  uppercase_letter c \/ lowercase_letter c \/ decimal_digit c.

Definition contains (P : N -> Prop) (s : Js.jsstring) : Prop :=
  exists c, c ∈ s /\ P c.

(** A friendships row links [a] and [b], in either direction. *)
Definition links (f : Friendships.row) (a b : uuid) : Prop :=
  (Friendships.sender_id f = a /\ Friendships.receiver_id f = b) \/
  (Friendships.receiver_id f = a /\ Friendships.sender_id f = b).

Definition accepted (f : Friendships.row) : Prop :=
  Friendships.status f = Some "accepted"%string.

(** A requester is one of the two participants of a friendships row. *)
Definition participant (uid : option uuid) (f : Friendships.row) : Prop :=
  uid = Some (Friendships.sender_id f) \/ uid = Some (Friendships.receiver_id f).

End Vocabulary.

(** ** Concrete databases used as examples *)

Module Scenarios.
Import Sql Database.

Definition alice : uuid := 1.
Definition bob : uuid := 2.
Definition carol : uuid := 3.

Definition profile_of (u : uuid) (name : string) : Profiles.row :=
  Profiles.Row u name None None None (Some 0%Z) (Some 0%Z).

Definition identity_of (u : uuid) (name : string) : AuthUsers.row :=
  AuthUsers.Row u (Some name) None.

Definition people : list Profiles.row :=
  [profile_of alice "alice@example.com"; profile_of bob "bob@example.com";
   profile_of carol "carol@example.com"].

Definition identities : list AuthUsers.row :=
  [identity_of alice "alice@example.com"; identity_of bob "bob@example.com";
   identity_of carol "carol@example.com"].

(** A post of bob for his friends. *)
Definition bobs_post : Posts.row :=
  Posts.Row 100 bob "hello friends" None (Some "friends"%string) (Some 5%Z) (Some 5%Z).

(** Alice asked bob and bob accepted. *)
Definition alice_to_bob : Friendships.row :=
  Friendships.Row 10 alice bob (Some "accepted"%string) (Some 1%Z) (Some 2%Z).

(** Bob also asked alice, and alice accepted: a second row for the same two
    people, which UNIQUE (sender_id, receiver_id) does not exclude. *)
Definition bob_to_alice : Friendships.row :=
  Friendships.Row 11 bob alice (Some "accepted"%string) (Some 3%Z) (Some 4%Z).

(** A request of alice to bob that is still pending. *)
Definition alice_asks_bob : Friendships.row :=
  Friendships.Row 10 alice bob (Some "pending"%string) (Some 1%Z) (Some 1%Z).

Definition one_friendship : db := Db identities people [bobs_post] [alice_to_bob].
Definition two_friendships : db :=
  Db identities people [bobs_post] [alice_to_bob; bob_to_alice].
Definition pending_request : db := Db identities people [bobs_post] [alice_asks_bob].
Definition no_friendship : db := Db identities people [bobs_post] [].


(** A new identity with registration metadata. *)
Definition dave : AuthUsers.row :=
  AuthUsers.Row 4 (Some "dave@example.com"%string)
    (Some (JObject [("full_name", JString "Dave D.")]%string)).

End Scenarios.

(** ** A session at the Auth form *)

Module AuthScenario.
Import Js Zod AuthStore AuthForm.
Local Open Scope Z_scope.

(** Well-formed credentials that the identity service does not know. *)
Definition credentials : inputs :=
  {| email := lit "a@b.co"; password := lit "Abc123!@"; confirmPassword := [];
     verificationCode := []; rememberMe := false |}.

Definition refused : response := Some (ErrorOf "Invalid login credentials").

(** A failed sign-in started at [t]: the countdown, if any, reads the clock
    in the same millisecond, the answer arrives 200 ms later, React commits
    10 ms after that. *)
Definition failed_at (t : Z) : event := Submit t t (t + 200) (t + 210) refused.

(** Five failed sign-ins, one per second. *)
Definition five_failures : list event :=
  [Edit credentials; failed_at 1000; failed_at 2000; failed_at 3000;
   failed_at 4000; failed_at 5000].

Definition after_five : world := run emailRegex_3_23 mounted five_failures.

(** A sixth attempt one second later, inside the window. *)
Definition sixth_inside : world := step emailRegex_3_23 after_five (failed_at 6000).

(** An attempt at 400 s, well after the window ended at 305.2 s. *)
Definition attempt_after_window : world :=
  step emailRegex_3_23 after_five (failed_at 400000).

(** Registering: the two passwords agree and the service accepts. *)
Definition registration : list event :=
  [ToggleMode;
   Edit {| email := lit "a@b.co"; password := lit "Abc123!@";
           confirmPassword := lit "Abc123!@"; verificationCode := [];
           rememberMe := false |};
   Submit 1000 1010 1200 1210 None].

Definition after_registration : world := run emailRegex_3_23 mounted registration.

End AuthScenario.

(** ** A sequence of feed refreshes *)

Module Feed.
Import Sql Database Home.

(** One call of [fetchPosts]: whether the request failed, who asked, and the
    database at that moment. *)
Record fetch := { failure : option string; requester : option uuid; database : db }.

Definition refresh (posts : state) (f : fetch) : state :=
  fetchPosts (serve (failure f) (requester f) (database f) fetchPosts_order) posts.

(** The [posts] cell of the component after a sequence of fetches: the list
    it renders from. *)
Definition posts_after (fs : list fetch) : state := fold_left refresh fs initial.

(** The order the request asks for, on table rows and on response rows. *)
Definition rows_in_order (o : order) (r r' : Posts.row) : Prop :=
  goes_before o (sort_key o r) (sort_key o r') = true.
Definition in_order (o : order) (p q : Post) : Prop :=
  goes_before o (created_at p) (created_at q) = true.

End Feed.

(** ** A feed with four posts *)

Module FeedScenario.
Import Sql Database Scenarios Feed.

Definition public_post (i : uuid) (author : uuid) (at_ : option timestamptz) : Posts.row :=
  Posts.Row i author "post" None (Some "public"%string) at_ at_.

Definition timeline : db :=
  Db identities people
     [public_post 100 alice (Some 5%Z); public_post 101 bob (Some 9%Z);
      public_post 102 carol None; public_post 103 alice (Some 7%Z)]
     [].

Definition one_fetch : list fetch :=
  [{| failure := None; requester := Some alice; database := timeline |}].

(** The same feed without the post that has no timestamp. *)
Definition dated_timeline : db :=
  Db identities people
     [public_post 100 alice (Some 5%Z); public_post 101 bob (Some 9%Z);
      public_post 103 alice (Some 7%Z)]
     [].

Definition dated_fetch : list fetch :=
  [{| failure := None; requester := Some alice; database := dated_timeline |}].

End FeedScenario.

(** ** The requests the Home and Profile components send *)

Module Requests.
Import Sql Database.

Definition with_posts (t : list Posts.row) (d : db) : db :=
  Db (auth_users d) (profiles d) t (friendships d).

(** [INSERT INTO posts (user_id, content, image_url) VALUES (...)] by the
    requester [uid]: [id] is drawn by [gen_random_uuid()] ([fresh]),
    [privacy] takes its default ['public'], both timestamps are [now()].  A
    NULL [user_id] makes the policy's check NULL, which rejects the row. *)
Definition insert_post (uid : option uuid) (fresh : uuid) (now : timestamptz)
    (user_id : option uuid) (content : string) (image_url : option string) (d : db)
    : outcome db :=
  match user_id with
  | None => Err (rls_violation "posts")
  | Some owner =>
      let new := Posts.Row fresh owner content image_url (Some "public"%string)
                           (Some now) (Some now) in
      if negb (holds (Posts.insert_check uid new)) then Err (rls_violation "posts")
      else if negb (Posts.privacy_check new) then Err (check_violation "posts_privacy_check")
      else if bool_decide (fresh ∈ List.map Posts.id (posts d))
      then Err (unique_violation "posts_pkey")
      else if negb (bool_decide (owner ∈ List.map Profiles.id (profiles d)))
      then Err (foreign_key_violation "posts_user_id_fkey")
      else Ok (with_posts (posts d ++ [new]) d)
  end.

(** The SET list of an UPDATE of [profiles]: [None] leaves the column
    alone.  Every column can be assigned; the policy names none. *)
Record profile_assignment := {
  set_id : option uuid;
  set_username : option string;
  set_full_name : option (option string);
  set_avatar_url : option (option string);
  set_bio : option (option string);
  set_created_at : option (option timestamptz);
  set_updated_at : option (option timestamptz)
}.

Definition apply_profile (a : profile_assignment) (r : Profiles.row) : Profiles.row :=
  Profiles.Row
    (default (Profiles.id r) (set_id a))
    (default (Profiles.username r) (set_username a))
    (default (Profiles.full_name r) (set_full_name a))
    (default (Profiles.avatar_url r) (set_avatar_url a))
    (default (Profiles.bio r) (set_bio a))
    (default (Profiles.created_at r) (set_created_at a))
    (default (Profiles.updated_at r) (set_updated_at a)).

Definition profile_touched (uid : option uuid) (target : uuid) (r : Profiles.row) : bool :=
  bool_decide (Profiles.id r = target) && holds (Profiles.update_using uid r).

(** [UPDATE profiles SET a WHERE id = target] by the requester [uid], under
    "Users can update own profile" (the USING clause also checks the updated
    row), the primary key and UNIQUE (username).  An updated row that passed
    the check has the id it had, so the foreign keys on [profiles.id] are
    not concerned. *)
Definition update_profile (uid : option uuid) (target : uuid) (a : profile_assignment)
    (d : db) : outcome db :=
  let t := List.map (fun r => if profile_touched uid target r then apply_profile a r else r)
                    (profiles d) in
  if negb (forallb (fun r => implb (profile_touched uid target r)
                       (holds (Profiles.update_using uid (apply_profile a r))))
                   (profiles d))
  then Err (rls_violation "profiles")
  else if negb (bool_decide (NoDup (List.map Profiles.id t)))
  then Err (unique_violation "profiles_pkey")
  else if negb (bool_decide (NoDup (List.map Profiles.username t)))
  then Err (unique_violation "profiles_username_key")
  else Ok (with_profiles t d).

(** [SELECT ... FROM profiles WHERE id = target], then [.single()]: the row
    when there is exactly one, an error otherwise. *)
Definition select_profile_single (uid : option uuid) (target : uuid) (d : db)
    : option Profiles.row :=
  match List.filter (fun r => holds (Profiles.select_using uid r)
                              && bool_decide (Profiles.id r = target)) (profiles d) with
  | [r] => Some r
  | _ => None
  end.

End Requests.

(** ** The Home component: creating a post *)

Module HomePage.
Import Js Sql Database Requests Home.

(** The [useState] cells of [Home]. *)
Record view := { posts : list Post; content : jsstring; imageUrl : jsstring }.

Definition initial : view := {| posts := []; content := []; imageUrl := [] |}.

(** The code units [String.prototype.trim] strips: WhiteSpace and
    LineTerminator. *)
Definition is_space (c : N) : bool :=
  ((9 <=? c) && (c <=? 13)) || (c =? 32) || (c =? 160) || (c =? 5760)
  || ((8192 <=? c) && (c <=? 8202)) || (c =? 8232) || (c =? 8233)
  || (c =? 8239) || (c =? 8287) || (c =? 12288) || (c =? 65279).

Fixpoint trim_start (s : jsstring) : jsstring :=
  match s with
  | c :: s' => if is_space c then trim_start s' else s
  | [] => []
  end.

Definition trim (s : jsstring) : jsstring := rev (trim_start (rev (trim_start s))).

(** The client side of a request: the identity of the session that signs the
    requests ([auth.uid()] on the server) and the [user] cell of the store. *)
Record client := { session : option uuid; user : option AuthStore.User }.

Section CreatePost.
(** The text a JavaScript string arrives as in a text column. *)
Variable to_text : jsstring -> string.

(** [createPost]: [insert_failure] and [fetch_failure] say whether the two
    requests reached the service; [fresh] and [now] are the id and the clock
    the database gives the row. *)
Definition createPost (cl : client) (fresh : uuid) (now : timestamptz)
    (insert_failure fetch_failure : option string) (d : db) (v : view) : db * view :=
  if bool_decide (trim (content v) = []) then (d, v)
  else
    match insert_failure with
    | Some _ => (d, v)
    | None =>
        match insert_post (session cl) fresh now
                (AuthStore.user_id <$> user cl)
                (to_text (content v))
                (match imageUrl v with [] => None | url => Some (to_text url) end)
                d with
        | Err _ => (d, v)
        | Ok d' =>
            (d', {| posts := fetchPosts (serve fetch_failure (session cl) d' fetchPosts_order)
                                        (posts v);
                    content := [];
                    imageUrl := [] |})
        end
    end.
End CreatePost.

End HomePage.

(** ** The Profile component *)

Module ProfilePage.
Import Sql Database Requests.

(** The selected columns: [username, full_name, avatar_url, bio]. *)
Record Profile := {
  username : string;
  full_name : option string;
  avatar_url : option string;
  bio : option string
}.

Record FormData := {
  form_username : string;
  form_full_name : string;
  form_avatar_url : string;
  form_bio : string
}.

Record view := { profile : option Profile; editing : bool; formData : FormData }.

Definition initial : view :=
  {| profile := None; editing := false; formData := Build_FormData "" "" "" "" |}.

Definition setEditing (b : bool) (v : view) : view :=
  {| profile := profile v; editing := b; formData := formData v |}.
Definition setFormData (f : FormData) (v : view) : view :=
  {| profile := profile v; editing := editing v; formData := f |}.

Definition selected (r : Profiles.row) : Profile :=
  {| username := Profiles.username r; full_name := Profiles.full_name r;
     avatar_url := Profiles.avatar_url r; bio := Profiles.bio r |}.

(** [x || ''] *)
Definition or_empty (x : option string) : string := default ""%string x.

(** [fetchProfile] *)
Definition fetchProfile (cl : HomePage.client) (failure : option string) (d : db)
    (v : view) : view :=
  match HomePage.user cl with
  | None => v
  | Some u =>
      match failure with
      | Some _ => v
      | None =>
          match select_profile_single (HomePage.session cl) (AuthStore.user_id u) d with
          | None => v
          | Some r =>
              {| profile := Some (selected r);
                 editing := editing v;
                 formData :=
                   {| form_username := or_empty (Some (Profiles.username r));
                      form_full_name := or_empty (Profiles.full_name r);
                      form_avatar_url := or_empty (Profiles.avatar_url r);
                      form_bio := or_empty (Profiles.bio r) |} |}
          end
      end
  end.

(** [.update(formData)]: the four columns of the form are assigned, as
    strings, and no other. *)
Definition assignment_of (f : FormData) : profile_assignment :=
  {| set_id := None;
     set_username := Some (form_username f);
     set_full_name := Some (Some (form_full_name f));
     set_avatar_url := Some (Some (form_avatar_url f));
     set_bio := Some (Some (form_bio f));
     set_created_at := None;
     set_updated_at := None |}.

(** [updateProfile] *)
Definition updateProfile (cl : HomePage.client) (update_failure fetch_failure : option string)
    (d : db) (v : view) : db * view :=
  match HomePage.user cl with
  | None => (d, v)
  | Some u =>
      match update_failure with
      | Some _ => (d, v)
      | None =>
          match update_profile (HomePage.session cl) (AuthStore.user_id u)
                  (assignment_of (formData v)) d with
          | Err _ => (d, v)
          | Ok d' => (d', fetchProfile cl fetch_failure d' (setEditing false v))
          end
      end
  end.

End ProfilePage.

(** ** The store over time, and the private routes of App *)

Module Session.
Import AuthStore.

(** What can happen to the store: a call of one of its actions, with what
    the service answered, or a notification of the auth listener. *)
Inductive store_event :=
| CallSignIn (resp : response)
| CallSignUp (resp : response)
| CallSignOut (resp : response)
| CallResetPassword (resp : response)
| CallVerifyOtp (resp : response)
| CallResendVerification (resp : response)
| AuthStateChange (session : option Session).

Definition store_step (s : AuthState) (e : store_event) : AuthState :=
  match e with
  | CallSignIn r => snd (signIn r s)
  | CallSignUp r => snd (signUp r s)
  | CallSignOut r => snd (signOut r s)
  | CallResetPassword r => snd (resetPassword r s)
  | CallVerifyOtp r => snd (verifyOtp r s)
  | CallResendVerification r => snd (resendVerification r s)
  | AuthStateChange session => onAuthStateChange session s
  end.

Definition store_run (s : AuthState) (es : list store_event) : AuthState :=
  fold_left store_step es s.

Definition is_notification (e : store_event) : bool :=
  match e with AuthStateChange _ => true | _ => false end.

(** Does the event write the [user] cell: a notification, or a sign-out the
    service accepted. *)
Definition writes_user (e : store_event) : bool :=
  match e with
  | AuthStateChange _ | CallSignOut None => true
  | _ => false
  end.

(** What a route element renders. *)
Inductive page := AuthPage | HomePage | ProfilePage.

Inductive rendered :=
| Spinner
| InLayout (children : page)
| NavigateTo (to : string).

(** [PrivateRoute] *)
Definition PrivateRoute (s : AuthState) (children : page) : rendered :=
  if loading s then Spinner
  else match user s with
       | Some _ => InLayout children
       | None => NavigateTo "/auth"
       end.

End Session.

(** ** More example rows and statements *)

Module MoreScenarios.
Import Sql Database Scenarios.

(** The friendships table satisfies its constraints and foreign keys. *)
Definition friendships_valid (d : db) : Prop :=
  Friendships.constraint_error (friendships d) = None /\
  first_error (List.map (friendships_fk_error d) (friendships d)) = None.

(** A private post of bob, and a friends-only post of alice. *)
Definition bobs_diary : Posts.row :=
  Posts.Row 101 bob "dear diary" None (Some "private"%string) (Some 6%Z) (Some 6%Z).
Definition alices_post : Posts.row :=
  Posts.Row 102 alice "hello from alice" None (Some "friends"%string) (Some 7%Z) (Some 7%Z).

(** Carol inserts, in her own name, a row to bob that is already accepted. *)
Definition carol_befriends_bob : Friendships.row :=
  Friendships.Row 12 carol bob (Some "accepted"%string) (Some 8%Z) (Some 8%Z).

(** [UPDATE friendships SET sender_id = carol WHERE id = 10] *)
Definition hand_over_to_carol : Friendships.assignment :=
  Friendships.Assign None (Some carol) None None None None.

(** A second identity with bob's email. *)
Definition bob_again : AuthUsers.row :=
  AuthUsers.Row 6 (Some "bob@example.com"%string) None.

End MoreScenarios.

(** ** A signed-in client *)

Module SessionScenario.
Import AuthStore Session Scenarios.

Definition alice_user : User :=
  {| user_id := alice; user_email := Some "alice@example.com"%string |}.

Definition alice_session : AuthStore.Session := {| session_user := alice_user |}.

(** Alice signs up, verifies, signs in and is notified. *)
Definition sign_up_then_in : list store_event :=
  [CallSignUp None; CallVerifyOtp None; CallSignIn None;
   AuthStateChange (Some alice_session)].

(** The calls alone, before any notification. *)
Definition calls_only : list store_event :=
  [CallSignUp None; CallVerifyOtp None; CallSignIn None].

(** The client of alice's browser once signed in. *)
Definition alice_client : HomePage.client :=
  {| HomePage.session := Some alice; HomePage.user := Some alice_user |}.

End SessionScenario.

(** ** Drafts and forms of the example pages *)

Module PageScenario.
Import Js Sql Database Scenarios SessionScenario.

(** The text of an ASCII JavaScript string. *)
Definition ascii_text (s : jsstring) : string :=
  string_of_list_ascii (List.map ascii_of_N s).

Definition draft : HomePage.view :=
  {| HomePage.posts := []; HomePage.content := lit "hi all"; HomePage.imageUrl := [] |}.

Definition blank_draft : HomePage.view :=
  {| HomePage.posts := []; HomePage.content := lit "   "; HomePage.imageUrl := [] |}.

(** A client whose store holds no user. *)
Definition signed_out_client : HomePage.client :=
  {| HomePage.session := None; HomePage.user := None |}.

Definition alice_edit : ProfilePage.view :=
  {| ProfilePage.profile := None; ProfilePage.editing := true;
     ProfilePage.formData :=
       ProfilePage.Build_FormData "alice" "Alice A." "" "likes roses" |}.

(** The database once alice's form is saved. *)
Definition after_alice_saves : db :=
  with_profiles
    [Profiles.Row alice "alice" (Some "Alice A."%string) (Some ""%string)
       (Some "likes roses"%string) (Some 0%Z) (Some 0%Z);
     profile_of bob "bob@example.com"; profile_of carol "carol@example.com"]
    no_friendship.

Definition alice_wants_bobs_name : ProfilePage.view :=
  {| ProfilePage.profile := None; ProfilePage.editing := true;
     ProfilePage.formData :=
       ProfilePage.Build_FormData "bob@example.com" "Alice A." "" "" |}.

End PageScenario.

(** ** Timing of renders, and more sessions at the Auth form *)

Module AuthTiming.
Import Js Zod AuthStore AuthForm AuthScenario.
Local Open Scope Z_scope.

(** React commits the render that follows a submission within the five
    minutes after its catch block ran. *)
Definition prompt (e : event) : Prop :=
  match e with
  | Submit now shown later clock resp => clock <= later + 300000
  | _ => True
  end.

(** The form with credentials typed in, before any submission. *)
Definition typed_in : world := step emailRegex_3_23 mounted (Edit credentials).

(** The registration form filled in, before it is submitted. *)
Definition registering : world :=
  run emailRegex_3_23 mounted
    [ToggleMode;
     Edit {| email := lit "a@b.co"; password := lit "Abc123!@";
             confirmPassword := lit "Abc123!@"; verificationCode := [];
             rememberMe := false |}].

(** A malformed address typed into the login form. *)
Definition bad_address : world :=
  step emailRegex_3_23 mounted
    (Edit {| email := lit "x@y"; password := lit "Abc123!@"; confirmPassword := [];
             verificationCode := []; rememberMe := false |}).

End AuthTiming.

(** * Properties *)

(** ** Regular expressions: the matcher decides the language *)

Module RegexFacts.
Import Js Regex.

Section Correctness.
Variable ic : bool.

Lemma nullable_lang r : nullable r = true <-> lang ic r [].
Proof.
  induction r as [| |k|a IHa b IHb|a IHa b IHb|a IHa|a IHa b IHb|a IHa]; simpl.
  - split; [discriminate | tauto].
  - tauto.
  - split; [discriminate | intros (c & Hc & _); discriminate].
  - rewrite andb_true_iff, IHa, IHb. split.
    + intros [Ha Hb]. exists [], []. auto.
    + intros (s1 & s2 & Hs & Ha & Hb).
      symmetry in Hs. apply app_eq_nil in Hs as [-> ->]. auto.
  - rewrite orb_true_iff, IHa, IHb. tauto.
  - split; [intros _; constructor | reflexivity].
  - rewrite andb_true_iff, IHa, IHb. tauto.
  - rewrite negb_true_iff, <- IHa. destruct (nullable a); split; congruence.
Qed.

Lemma star_cons_inv (P : jsstring -> Prop) c s :
  star P (c :: s) -> exists s1 s2, s = s1 ++ s2 /\ P (c :: s1) /\ star P s2.
Proof.
  intros H. remember (c :: s) as t eqn:Et. revert c s Et.
  induction H as [|s1 s2 H1 H2 IH]; intros c s Et; [discriminate|].
  destruct s1 as [|c1 s1]; simpl in Et.
  - apply IH; assumption.
  - injection Et as -> <-. exists s1, s2. auto.
Qed.

Lemma deriv_lang r : forall c s, lang ic (deriv ic c r) s <-> lang ic r (c :: s).
Proof.
  induction r as [| |k|a IHa b IHb|a IHa b IHb|a IHa|a IHa b IHb|a IHa];
    intros c s; simpl.
  - tauto.
  - split; [tauto | discriminate].
  - destruct (cls_match ic k c) eqn:Hk; simpl.
    + split.
      * intros ->. exists c. auto.
      * intros (c' & Hc & _). congruence.
    + split; [tauto|]. intros (c' & Hc & Hm). congruence.
  - split.
    + intros [(s1 & s2 & -> & H1 & H2) | H].
      * exists (c :: s1), s2. rewrite <- IHa. auto.
      * destruct (nullable a) eqn:Hn; [|destruct H].
        exists [], (c :: s). rewrite <- nullable_lang, <- IHb. auto.
    + intros (s1 & s2 & Hs & H1 & H2). destruct s1 as [|c1 s1]; simpl in Hs.
      * right. apply nullable_lang in H1. rewrite H1, IHb, Hs. assumption.
      * injection Hs as <- ->. left. exists s1, s2. rewrite IHa. auto.
  - rewrite IHa, IHb. tauto.
  - split.
    + intros (s1 & s2 & -> & H1 & H2).
      apply (star_app _ (c :: s1) s2); [apply IHa|]; assumption.
    + intros H. apply star_cons_inv in H as (s1 & s2 & -> & H1 & H2).
      exists s1, s2. rewrite IHa. auto.
  - rewrite IHa, IHb. tauto.
  - rewrite IHa. tauto.
Qed.

Lemma matches_lang s : forall r, matches ic r s = true <-> lang ic r s.
Proof.
  induction s as [|c s IH]; intros r; simpl.
  - apply nullable_lang.
  - rewrite IH. apply deriv_lang.
Qed.

Lemma lang_star_any s : lang ic (Star Any) s.
Proof.
  induction s as [|c s IH]; simpl; [constructor|].
  apply (star_app _ [c] s); [|exact IH].
  exists c. split; [reflexivity|]. unfold cls_match; simpl.
  now rewrite andb_false_r.
Qed.

Lemma star_set k s :
  star (lang ic (Set_ k)) s <-> Forall (fun c => cls_match ic k c = true) s.
Proof.
  split.
  - induction 1 as [|s1 s2 (c & -> & Hc) _ IH]; constructor; assumption.
  - induction 1 as [|c s Hc _ IH]; [constructor|].
    apply (star_app _ [c] s); [|exact IH]. exists c. auto.
Qed.
End Correctness.

(** [/[...]/.test(s)]: some code unit of [s] is in the class. *)
Lemma test_search_class k s :
  test (search_class k) s = true <-> exists c, c ∈ s /\ cls_match false k c = true.
Proof.
  unfold test, search_class, compile; simpl. rewrite matches_lang; simpl. split.
  - intros (s1 & s2 & -> & _ & s3 & s4 & -> & (c & -> & Hc) & _).
    exists c. split; [|assumption]. set_solver.
  - intros (c & Hin & Hc). apply list_elem_of_split in Hin as (l1 & l2 & ->).
    exists l1, (c :: l2). split; [reflexivity|]. split; [apply lang_star_any|].
    exists [c], l2. split; [reflexivity|]. split; [|apply lang_star_any].
    exists c. auto.
Qed.

(** [/^[...]+$/.test(s)]: [s] is not empty and all of it is in the class. *)
Lemma test_all_of_class k s :
  test (RegExp true [] (Plus (Set_ k)) true false) s = true <->
  s <> [] /\ Forall (fun c => cls_match false k c = true) s.
Proof.
  unfold test, compile, Plus; simpl. rewrite matches_lang; simpl. split.
  - intros (s1 & s2 & -> & (s3 & s4 & -> & (c & -> & Hc) & Hs) & ->).
    rewrite app_nil_r. split; [discriminate|].
    constructor; [assumption|]. apply star_set in Hs. exact Hs.
  - intros [Hne Hall]. destruct s as [|c s]; [congruence|].
    inversion Hall as [|? ? Hc Hs]; subst.
    exists (c :: s), []. rewrite app_nil_r. split; [reflexivity|]. split; [|reflexivity].
    exists [c], s. split; [reflexivity|]. split; [exists c; auto|].
    apply star_set. exact Hs.
Qed.

End RegexFacts.

(** ** Field validation *)

Module ValidationFacts.
Import Js Regex Zod Validation Vocabulary RegexFacts.

(** A schema accepts an input exactly when none of its checks is violated. *)
Lemma accepts_no_violation emailRegex schema s :
  accepts emailRegex schema s = true <->
  Forall (fun c => violated emailRegex s c = false) schema.
Proof.
  unfold accepts, safeParse, issues.
  induction schema as [|c schema IH]; simpl.
  - split; [constructor | reflexivity].
  - rewrite List.Forall_cons_iff. destruct (violated emailRegex s c); simpl.
    + split; [discriminate | intros [? _]; discriminate].
    + rewrite <- IH. tauto.
Qed.

Ltac class_cases :=
  unfold cls_match, in_ranges, in_range, alphanumeric, uppercase_letter,
    lowercase_letter, decimal_digit; simpl;
  repeat match goal with
         | |- context [?a <=? ?b] => destruct (N.leb_spec a b)
         end; simpl; split; intros; try discriminate; try reflexivity; try lia;
  try (intuition lia).

Lemma class_upper c :
  cls_match false (Cls false [(65, 90)]) c = true <-> uppercase_letter c.
Proof. class_cases. Qed.

Lemma class_lower c :
  cls_match false (Cls false [(97, 122)]) c = true <-> lowercase_letter c.
Proof. class_cases. Qed.

Lemma class_digit c :
  cls_match false (Cls false [(48, 57)]) c = true <-> decimal_digit c.
Proof. class_cases. Qed.

Lemma class_special c :
  cls_match false (Cls true [(65, 90); (97, 122); (48, 57)]) c = true <->
  ~ alphanumeric c.
Proof. class_cases. Qed.

Lemma search_contains k (P : N -> Prop) s :
  (forall c, cls_match false k c = true <-> P c) ->
  negb (test (search_class k) s) = false <-> contains P s.
Proof.
  intros HP. rewrite negb_false_iff, test_search_class. unfold contains.
  split; intros (c & Hin & Hc); exists c; split; auto; apply HP; assumption.
Qed.

(** C3. The password validator accepts a string exactly when it has at least
    8 code units and contains an uppercase letter (A-Z), a lowercase letter
    (a-z), a digit (0-9) and a code unit that is none of these.  "Abc123!@"
    is accepted, "abc12345" is rejected. *)
Theorem passwordSchema_accepts_iff :
  forall emailRegex,
    (forall s,
       accepts emailRegex passwordSchema s = true <->
       (8 <= length s)%nat /\
       contains uppercase_letter s /\
       contains lowercase_letter s /\
       contains decimal_digit s /\
       contains (fun c => ~ alphanumeric c) s) /\
    accepts emailRegex passwordSchema (lit "Abc123!@") = true /\
    accepts emailRegex passwordSchema (lit "abc12345") = false.
Proof.
  intros emailRegex. split; [|split; reflexivity].
  intros s. rewrite accepts_no_violation.
  unfold passwordSchema, z_string, min, regex; simpl.
  rewrite !List.Forall_cons_iff; simpl.
  rewrite Nat.ltb_ge.
  rewrite (search_contains _ _ s class_upper), (search_contains _ _ s class_lower),
    (search_contains _ _ s class_digit), (search_contains _ _ s class_special).
  intuition constructor.
Qed.

(** C7. The email validator accepts a string exactly when Zod's email
    pattern matches it and its length is between 5 and 64; with the pattern
    of Zod 3.23, "a@b.co" (6 characters) is accepted and "x@y" is rejected,
    the first reported issue being the format message. *)
Theorem emailSchema_accepts_iff :
  (forall emailRegex s,
     accepts emailRegex emailSchema s = true <->
     test emailRegex s = true /\ (5 <= length s <= 64)%nat) /\
  length (lit "a@b.co") = 6%nat /\
  accepts emailRegex_3_23 emailSchema (lit "a@b.co") = true /\
  accepts emailRegex_3_23 emailSchema (lit "x@y") = false /\
  test emailRegex_3_23 (lit "x@y") = false /\
  (exists rest, safeParse emailRegex_3_23 emailSchema (lit "x@y")
                = Failure "Please enter a valid email address" rest).
Proof.
  split; [|repeat split; try reflexivity; eexists; reflexivity].
  intros emailRegex s. rewrite accepts_no_violation.
  unfold emailSchema, z_string, email, min, max; simpl.
  rewrite !List.Forall_cons_iff; simpl.
  rewrite negb_false_iff, !Nat.ltb_ge.
  intuition constructor.
Qed.

(** C8. The verification-code validator accepts a string exactly when it has
    6 code units and each is a decimal digit; "123456" is accepted, "12a456"
    and "12345" are rejected. *)
Theorem verificationCodeSchema_accepts_iff :
  forall emailRegex,
    (forall s,
       accepts emailRegex verificationCodeSchema s = true <->
       length s = 6%nat /\ (forall c, c ∈ s -> decimal_digit c)) /\
    accepts emailRegex verificationCodeSchema (lit "123456") = true /\
    accepts emailRegex verificationCodeSchema (lit "12a456") = false /\
    accepts emailRegex verificationCodeSchema (lit "12345") = false.
Proof.
  intros emailRegex. split; [|repeat split; reflexivity].
  intros s. rewrite accepts_no_violation.
  unfold verificationCodeSchema, z_string, length_, regex; simpl.
  rewrite !List.Forall_cons_iff; simpl.
  rewrite !negb_false_iff, Nat.eqb_eq.
  unfold re_digits_only. rewrite test_all_of_class.
  rewrite <- list.Forall_forall.
  split.
  - intros (Hlen & (_ & Hall) & _). split; [assumption|].
    eapply Forall_impl; [exact Hall|]. intros c. apply class_digit.
  - intros [Hlen Hall]. repeat split; try constructor.
    + assumption.
    + intros ->. discriminate.
    + eapply Forall_impl; [exact Hall|]. intros c. apply class_digit.
Qed.

End ValidationFacts.

(** ** Three-valued conditions *)

Module SqlFacts.
Import Sql.

Lemma holds_Some b : holds (Some b) = b.
Proof. destruct b; reflexivity. Qed.

Lemma holds_or3 a b : holds (or3 a b) = holds a || holds b.
Proof. destruct a as [[]|], b as [[]|]; reflexivity. Qed.

Lemma holds_and3 a b : holds (and3 a b) = holds a && holds b.
Proof. destruct a as [[]|], b as [[]|]; reflexivity. Qed.

Lemma holds_eq3 {A} `{EqDecision A} (x y : option A) :
  holds (eq3 x y) = true <-> exists a, x = Some a /\ y = Some a.
Proof.
  destruct x as [a|], y as [b|]; simpl.
  - destruct (bool_decide_reflect (a = b)) as [->|Hne]; simpl.
    + split; [eauto | reflexivity].
    + split; [discriminate|]. intros (c & [= ->] & [= ->]). congruence.
  - split; [discriminate | intros (c & _ & [=])].
  - split; [discriminate | intros (c & [=] & _)].
  - split; [discriminate | intros (c & [=] & _)].
Qed.

Lemma holds_eq3_Some {A} `{EqDecision A} (x : option A) (b : A) :
  holds (eq3 x (Some b)) = true <-> x = Some b.
Proof.
  rewrite holds_eq3. split.
  - intros (a & -> & [= ->]). reflexivity.
  - intros ->. eauto.
Qed.

Lemma holds_eq3_Some_l {A} `{EqDecision A} (x : option A) (b : A) :
  holds (eq3 (Some b) x) = true <-> x = Some b.
Proof.
  rewrite holds_eq3. split.
  - intros (a & [= ->] & ->). reflexivity.
  - intros ->. eauto.
Qed.

Lemma holds_exists3 {A} (rows : list A) cond :
  holds (exists3 rows cond) = true <-> exists r, r ∈ rows /\ holds (cond r) = true.
Proof.
  unfold exists3. rewrite holds_Some, existsb_exists.
  split; intros (r & Hin & Hr); exists r; split; auto; apply list_elem_of_In; assumption.
Qed.

End SqlFacts.

(** ** Row-level policies and the trigger *)

Module PolicyFacts.
Import Sql Database Vocabulary SqlFacts.

Lemma using_participant uid f :
  holds (Friendships.update_using uid f) = true <-> participant uid f.
Proof.
  unfold Friendships.update_using, in3, participant; simpl.
  rewrite !holds_or3, !orb_true_iff, !holds_eq3_Some; simpl.
  intuition discriminate.
Qed.

Lemma select_participant uid f :
  holds (Friendships.select_using uid f) = true <-> participant uid f.
Proof. apply using_participant. Qed.

(** The condition of the sub-select of the posts policy, for one row. *)
Lemma friend_condition uid owner f :
  holds
    (and3
       (or3 (and3 (eq3 (Some (Friendships.sender_id f)) uid)
                  (eq3 (Some (Friendships.receiver_id f)) (Some owner)))
            (and3 (eq3 (Some (Friendships.receiver_id f)) uid)
                  (eq3 (Some (Friendships.sender_id f)) (Some owner))))
       (eq3 (Friendships.status f) (Some "accepted"%string))) = true
  <-> accepted f /\ exists u, uid = Some u /\ links f u owner.
Proof.
  rewrite holds_and3, holds_or3, !holds_and3.
  rewrite andb_true_iff, orb_true_iff, !andb_true_iff.
  rewrite !holds_eq3_Some, !holds_eq3_Some_l.
  unfold accepted, links. split.
  - intros [[[Hs Hr] | [Hr Hs]] Hst]; (split; [assumption|]).
    + exists (Friendships.sender_id f). injection Hr as Hr. auto.
    + exists (Friendships.receiver_id f). injection Hs as Hs. auto.
  - intros [Hst (u & -> & [[<- <-] | [<- <-]])]; auto.
Qed.

(** What the posts policy lets through, with the sub-select reading the
    whole friendships table or only the requester's rows: no difference. *)
Lemma post_visible_iff uid d r :
  post_visible uid d r = true <->
  Posts.privacy r = Some "public"%string \/
  uid = Some (Posts.user_id r) \/
  (Posts.privacy r = Some "friends"%string /\
   exists f, f ∈ friendships d /\ accepted f /\
             exists u, uid = Some u /\ links f u (Posts.user_id r)).
Proof.
  unfold post_visible, Posts.select_using.
  rewrite !holds_or3, holds_and3, !orb_true_iff, andb_true_iff.
  rewrite holds_eq3_Some, holds_eq3_Some_l, holds_eq3_Some, holds_exists3.
  assert (Hex :
    (exists f, f ∈ visible_friendships uid d /\
       holds
         (and3
            (or3 (and3 (eq3 (Some (Friendships.sender_id f)) uid)
                       (eq3 (Some (Friendships.receiver_id f)) (Some (Posts.user_id r))))
                 (and3 (eq3 (Some (Friendships.receiver_id f)) uid)
                       (eq3 (Some (Friendships.sender_id f)) (Some (Posts.user_id r)))))
            (eq3 (Friendships.status f) (Some "accepted"%string))) = true)
    <-> exists f, f ∈ friendships d /\ accepted f /\
                  exists u, uid = Some u /\ links f u (Posts.user_id r)).
  { unfold visible_friendships. split.
    - intros (f & Hin & Hc). exists f. apply friend_condition in Hc.
      apply list_elem_of_In, filter_In in Hin as [Hin _].
      apply list_elem_of_In in Hin. tauto.
    - intros (f & Hin & Hacc & u & -> & Hl). exists f. split.
      + apply list_elem_of_In, filter_In. split; [apply list_elem_of_In; assumption|].
        apply select_participant. unfold participant.
        destruct Hl as [[<- _] | [<- _]]; auto.
      + apply friend_condition. eauto. }
  rewrite Hex. tauto.
Qed.


(** A successful UPDATE: every targeted row the USING clause lets through is
    replaced by its updated version, which passed the check. *)
Lemma update_friendships_ok uid target a d d' :
  update_friendships uid target a d = Ok d' ->
  friendships d' =
    List.map (fun r => if touched uid target r then Friendships.apply a r else r)
             (friendships d) /\
  forall r, r ∈ friendships d -> touched uid target r = true ->
            holds (Friendships.update_check uid (Friendships.apply a r)) = true.
Proof.
  unfold update_friendships.
  destruct (forallb _ (friendships d)) eqn:Hall; simpl; [|discriminate].
  destruct (Friendships.constraint_error _); [discriminate|].
  destruct (first_error _); [discriminate|].
  intros [= <-]. split; [reflexivity|].
  intros r Hin Ht. rewrite forallb_forall in Hall.
  apply list_elem_of_In in Hin. specialize (Hall r Hin). rewrite Ht in Hall. exact Hall.
Qed.

Lemma touched_iff uid target f :
  touched uid target f = true <-> Friendships.id f = target /\ participant uid f.
Proof.
  unfold touched. rewrite andb_true_iff, bool_decide_eq_true, using_participant. tauto.
Qed.

(** C1 (amended). The posts read policy lets a row through exactly when it is
    public, or the requester owns it, or it is for friends and an accepted
    friendships row links requester and owner in either direction.  When a
    participant changes the accepted row linking a non-owner to the owner of
    a friends-only post to rejected, and no other accepted row links the
    two, the post is visible before and invisible at the next evaluation. *)
Theorem posts_read_policy :
  (forall uid d r,
     post_visible uid d r = true <->
     Posts.privacy r = Some "public"%string \/
     uid = Some (Posts.user_id r) \/
     (Posts.privacy r = Some "friends"%string /\
      exists f, f ∈ friendships d /\ accepted f /\
                exists u, uid = Some u /\ links f u (Posts.user_id r))) /\
  (forall d d' r u who f,
     Posts.privacy r = Some "friends"%string ->
     u <> Posts.user_id r ->
     f ∈ friendships d -> accepted f -> links f u (Posts.user_id r) ->
     (forall g, g ∈ friendships d -> accepted g -> links g u (Posts.user_id r) -> g = f) ->
     participant who f ->
     update_friendships who (Friendships.id f) (Friendships.only_status "rejected") d = Ok d' ->
     post_visible (Some u) d r = true /\ post_visible (Some u) d' r = false).
Proof.
  split; [apply post_visible_iff|].
  intros d d' r u who f Hpriv Hne Hin Hacc Hl Huniq Hwho Hupd. split.
  - apply post_visible_iff. right; right. split; [assumption|]. exists f. eauto.
  - apply not_true_is_false. rewrite post_visible_iff.
    intros [Hpub | [Hown | (_ & g' & Hg' & Hacc' & u' & [= <-] & Hl')]].
    + congruence.
    + congruence.
    + apply update_friendships_ok in Hupd as [Ht _]. rewrite Ht in Hg'.
      apply list_elem_of_In, in_map_iff in Hg' as (g & <- & Hg).
      apply list_elem_of_In in Hg.
      destruct (touched who (Friendships.id f) g) eqn:Htouched.
      * unfold accepted in Hacc'. simpl in Hacc'. discriminate.
      * assert (g = f) as -> by (apply Huniq; assumption).
        assert (touched who (Friendships.id f) f = true) by (apply touched_iff; auto).
        congruence.
Qed.



(** C4. When the insert of a new identity succeeds, the same statement has
    appended exactly one profile row: its id is the identity's id, its
    username the identity's email, its full_name the [full_name] entry of
    the registration metadata. *)
Theorem new_identity_gets_profile :
  forall jsonb_out now new d d',
    insert_auth_user jsonb_out now new d = Ok d' ->
    auth_users d' = auth_users d ++ [new] /\
    exists p,
      profiles d' = profiles d ++ [p] /\
      Profiles.id p = AuthUsers.id new /\
      Some (Profiles.username p) = AuthUsers.email new /\
      Profiles.full_name p
        = json_get_text jsonb_out (AuthUsers.raw_user_meta_data new) "full_name".
Proof.
  intros jsonb_out now new d d'.
  unfold insert_auth_user, handle_new_user, insert_profile_definer.
  destruct (bool_decide _); [discriminate|].
  destruct (AuthUsers.email new) as [name|]; [|discriminate].
  repeat (destruct (bool_decide _); simpl; try discriminate).
  intros [= <-]. simpl. split; [reflexivity|].
  eexists. split; [reflexivity|]. simpl. auto.
Qed.

(** When the profile cannot be created the identity is not created either:
    the statement fails as a whole. *)
Lemma identity_without_email_is_refused jsonb_out now new d :
  AuthUsers.email new = None ->
  exists e, insert_auth_user jsonb_out now new d = Err e.
Proof.
  intros Hmail. unfold insert_auth_user, handle_new_user, insert_profile_definer.
  destruct (bool_decide _); [eauto|]. rewrite Hmail. eauto.
Qed.

Import Scenarios.

(** With one accepted row between alice and bob, bob rejecting it hides his
    friends-only post from alice. *)
Lemma posts_read_policy_witness :
  post_visible (Some alice) one_friendship bobs_post = true /\
  post_visible (Some alice)
    (with_friendships [Friendships.apply (Friendships.only_status "rejected") alice_to_bob]
       one_friendship)
    bobs_post = false.
Proof.
  apply (proj2 posts_read_policy one_friendship _ bobs_post alice (Some bob) alice_to_bob).
  - reflexivity.
  - discriminate.
  - constructor.
  - reflexivity.
  - left. split; reflexivity.
  - intros g Hg _ _. apply list_elem_of_singleton in Hg. exact Hg.
  - right. reflexivity.
  - reflexivity.
Defined.

(** With the two reciprocal accepted rows, alice rejecting the one she sent
    leaves bob's friends-only post visible to her: the other row still
    links them. *)
Lemma reciprocal_row_keeps_post_visible :
  Posts.privacy bobs_post = Some "friends"%string /\
  alice <> Posts.user_id bobs_post /\
  alice_to_bob ∈ friendships two_friendships /\
  accepted alice_to_bob /\
  links alice_to_bob alice (Posts.user_id bobs_post) /\
  Friendships.constraint_error (friendships two_friendships) = None /\
  post_visible (Some alice) two_friendships bobs_post = true /\
  exists d',
    update_friendships (Some alice) (Friendships.id alice_to_bob)
      (Friendships.only_status "rejected") two_friendships = Ok d' /\
    friendships d'
      = [Friendships.Row 10 alice bob (Some "rejected"%string) (Some 1%Z) (Some 2%Z);
         bob_to_alice] /\
    post_visible (Some alice) d' bobs_post = true.
Proof.
  split; [reflexivity|]. split; [discriminate|]. split; [constructor|].
  split; [reflexivity|]. split; [left; split; reflexivity|].
  split; [reflexivity|]. split; [reflexivity|].
  eexists. split; [reflexivity|]. split; reflexivity.
Qed.




(** Dave registers with a full name in his metadata. *)
Lemma new_identity_gets_profile_witness :
  exists d',
    insert_auth_user (fun _ => ""%string) 99%Z dave no_friendship = Ok d' /\
    exists p,
      profiles d' = profiles no_friendship ++ [p] /\
      Profiles.id p = 4 /\
      Some (Profiles.username p) = Some "dave@example.com"%string /\
      Profiles.full_name p = Some "Dave D."%string.
Proof.
  eexists. split; [reflexivity|].
  destruct (new_identity_gets_profile (fun _ => ""%string) 99%Z dave no_friendship _ eq_refl)
    as (_ & p & Hp & Hid & Hname & Hfull).
  exists p. auto.
Defined.

End PolicyFacts.

(** ** The Auth form: failure counter and lockout *)

Module AuthFormFacts.
Import Js Regex Zod Validation AuthStore AuthForm AuthScenario.
Local Open Scope Z_scope.

Section Facts.
Variable emailRegex : regexp.

Ltac run_body :=
  unfold try_body, validate, bind, upd, await, throw, ret,
    signIn, signUp, verifyOtp, resetPassword; simpl;
  repeat match goal with
         | |- context [safeParse ?r ?sch ?v] => destruct (safeParse r sch v); simpl
         | |- context [mode ?c] => destruct (mode c); simpl
         | |- context [bool_decide ?P] => destruct (bool_decide P); simpl
         | |- context [match ?resp with Some _ => _ | None => _ end] =>
             destruct resp; simpl
         end.

(** The [try] block never touches [lockoutUntil]; it leaves the counter
    alone when it throws and zeroes it when it completes. *)
Lemma try_body_counter c resp w :
  lockoutUntil (form (snd (try_body emailRegex c resp w))) = lockoutUntil (form w) /\
  match fst (try_body emailRegex c resp w) with
  | inl _ => attempts (form (snd (try_body emailRegex c resp w))) = 0
  | inr _ => attempts (form (snd (try_body emailRegex c resp w))) = attempts (form w)
  end.
Proof. run_body; auto. Qed.

(** How it ends depends on the closed-over values and the response only. *)
Lemma try_body_result c resp w w' :
  fst (try_body emailRegex c resp w) = fst (try_body emailRegex c resp w').
Proof. run_body; auto. Qed.

(** While the lockout lasts a submission only replaces the messages: the
    countdown is shown, nothing is validated and no call is made. *)
Lemma handleSubmit_locked now shown later resp w t :
  lockoutUntil (form w) = Some t -> now < t ->
  handleSubmit emailRegex now shown later resp w =
  on_form (fun s => setError (Some (TryAgainInSeconds (ceil_seconds (t - shown))))
                      (setSuccess None (setError None s))) w.
Proof.
  intros Ht Hlt. unfold handleSubmit, locked_out, bind, upd, on_form; simpl.
  rewrite Ht; simpl. apply Z.ltb_lt in Hlt. rewrite Hlt. reflexivity.
Qed.

Lemma handleSubmit_unlocked now shown later resp w :
  locked_out now (form w) = false ->
  handleSubmit emailRegex now shown later resp w =
  snd (try_catch_finally (try_body emailRegex (form w) resp)
         (catch_block (form w) later) (upd (setLoading false))
         {| form := setSuccess None (setError None (form w)); store := store w |}).
Proof.
  intros Hl. unfold handleSubmit, bind at 1 2, upd at 1 2; simpl.
  rewrite Hl. reflexivity.
Qed.

(** Outside a lockout, a submission that completes zeroes the counter. *)
Lemma handleSubmit_success now shown later resp w :
  locked_out now (form w) = false ->
  try_result emailRegex resp w = inl tt ->
  attempts (form (handleSubmit emailRegex now shown later resp w)) = 0 /\
  lockoutUntil (form (handleSubmit emailRegex now shown later resp w)) = lockoutUntil (form w).
Proof.
  intros Hl Hr. unfold try_result in Hr.
  rewrite (handleSubmit_unlocked _ _ _ _ _ Hl).
  unfold try_catch_finally.
  set (w0 := {| form := setSuccess None (setError None (form w)); store := store w |}).
  rewrite (try_body_result _ _ w w0) in Hr.
  pose proof (try_body_counter (form w) resp w0) as [Hlock Hatt].
  destruct (try_body emailRegex (form w) resp w0) as [[[]|e] w1]; simpl in *;
    [|discriminate].
  auto.
Qed.

(** Outside a lockout, a failed submission adds one to the counter; when
    the counter was already at 4 or more, the lockout is set to five
    minutes after the failure and the five-minute message replaces the
    error's own. *)
Lemma handleSubmit_failure now shown later resp w e :
  locked_out now (form w) = false ->
  try_result emailRegex resp w = inr e ->
  let w' := handleSubmit emailRegex now shown later resp w in
  attempts (form w') = attempts (form w) + 1 /\
  (attempts (form w) < 4 ->
   lockoutUntil (form w') = lockoutUntil (form w) /\
   error (form w') = Some (Text match e with
                                | ErrorOf m => m
                                | NotAnError => "An error occurred"
                                end)) /\
  (4 <= attempts (form w) ->
   lockoutUntil (form w') = Some (later + 300000) /\
   error (form w') = Some (Text "Too many attempts. Please try again in 5 minutes.")).
Proof.
  intros Hl Hr. unfold try_result in Hr.
  rewrite (handleSubmit_unlocked _ _ _ _ _ Hl).
  unfold try_catch_finally.
  set (w0 := {| form := setSuccess None (setError None (form w)); store := store w |}).
  rewrite (try_body_result _ _ w w0) in Hr.
  pose proof (try_body_counter (form w) resp w0) as [Hlock Hatt].
  destruct (try_body emailRegex (form w) resp w0) as [[[]|e'] w1]; simpl in *;
    [discriminate|]. injection Hr as ->.
  unfold catch_block, bind, upd; simpl.
  destruct (Z.leb_spec 4 (attempts (form w))); simpl;
    (split; [lia|]); split; intros; try lia; auto.
Qed.

(** The effect runs right after the lockout was set, when the window has
    not ended; it does not run again: the counter is never zeroed by it. *)
Lemma commit_keeps_counter now shown later clock resp w :
  clock <= later + 300000 ->
  step emailRegex w (Submit now shown later clock resp) = handleSubmit emailRegex now shown later resp w.
Proof.
  intros Hclock. simpl. unfold commit.
  destruct (bool_decide _) eqn:Hsame; [reflexivity|].
  apply bool_decide_eq_false in Hsame.
  set (w' := handleSubmit emailRegex now shown later resp w) in *.
  assert (Hset : lockoutUntil (form w') = lockoutUntil (form w) \/
                 lockoutUntil (form w') = Some (later + 300000)).
  { subst w'. destruct (locked_out now (form w)) eqn:Hl.
    - left. unfold handleSubmit, bind, upd; simpl. rewrite Hl. reflexivity.
    - destruct (try_result emailRegex resp w) as [[]|e] eqn:Hr.
      + left. apply handleSubmit_success; assumption.
      + pose proof (handleSubmit_failure now shown later resp w e Hl Hr) as (_ & Hlow & Hhigh).
        destruct (Z.lt_ge_cases (attempts (form w)) 4).
        * left. apply Hlow. assumption.
        * right. apply Hhigh. assumption. }
  destruct Hset as [Heq | Heq]; [congruence|].
  unfold lockout_effect. rewrite Heq.
  destruct (Z.ltb_spec (later + 300000) clock); [lia|].
  destruct w'; reflexivity.
Qed.

(** Once the counter is at 5 and the window is over, the next failed
    submission is processed but locks the form again at once. *)
Lemma failure_after_window now shown later clock resp w t e :
  lockoutUntil (form w) = Some t -> t <= now ->
  4 <= attempts (form w) ->
  clock <= later + 300000 ->
  try_result emailRegex resp w = inr e ->
  let w' := step emailRegex w (Submit now shown later clock resp) in
  attempts (form w') = attempts (form w) + 1 /\
  lockoutUntil (form w') = Some (later + 300000) /\
  error (form w') = Some (Text "Too many attempts. Please try again in 5 minutes.").
Proof.
  intros Ht Hnow Hatt Hclock Hr w'. subst w'.
  rewrite commit_keeps_counter by assumption.
  assert (Hl : locked_out now (form w) = false).
  { unfold locked_out. rewrite Ht. apply Z.ltb_ge. assumption. }
  pose proof (handleSubmit_failure now shown later resp w e Hl Hr) as (Hinc & _ & Hhigh).
  destruct (Hhigh Hatt). auto.
Qed.

(** No handler of the form writes the [user] cell of the store: after a
    registration, as after any other submission, it is what it was. *)
Lemma form_leaves_user w e :
  user (store (step emailRegex w e)) = user (store w).
Proof.
  destruct e as [i| | |now shown later clock resp|clock resp]; simpl; try reflexivity.
  - unfold commit. destruct (bool_decide _); simpl;
      unfold handleSubmit, try_catch_finally, catch_block, bind at 1 2, upd at 1 2; simpl;
      (destruct (locked_out now (form w)); [reflexivity|]);
      run_body; destruct (4 <=? attempts (form w)); reflexivity.
  - unfold commit. destruct (bool_decide _); simpl;
      unfold handleResendVerification, try_catch_finally, bind, upd, await,
        resendVerification; simpl;
      destruct resp; reflexivity.
Qed.

End Facts.

(** C2. Five failed sign-ins bring the counter to 5 and set the lockout to
    five minutes after the fifth failure; a sixth attempt inside the window
    only shows the countdown.  An attempt after the window is processed, but
    the counter was not reset: it goes to 6, the form is locked for another
    five minutes at once, and the five-minute message hides the error. *)
Theorem counter_survives_lockout_window :
  attempts (form after_five) = 5 /\
  lockoutUntil (form after_five) = Some 305200 /\
  error (form sixth_inside) = Some (TryAgainInSeconds 300) /\
  attempts (form sixth_inside) = 5 /\
  lockoutUntil (form sixth_inside) = Some 305200 /\
  locked_out 400000 (form after_five) = false /\
  attempts (form attempt_after_window) = 6 /\
  lockoutUntil (form attempt_after_window) = Some 700200 /\
  error (form attempt_after_window)
    = Some (Text "Too many attempts. Please try again in 5 minutes.").
Proof. vm_compute. repeat split. Qed.

(** Registration through the form: the store has no user afterwards, the
    form asks for the code and has not navigated. *)
Lemma registration_awaits_verification :
  user (store after_registration) = None /\
  verificationSent (store after_registration) = true /\
  mode (form after_registration) = verify /\
  path (form after_registration) = None /\
  attempts (form after_registration) = 0.
Proof. vm_compute. repeat split. Qed.

End AuthFormFacts.

(** ** The feed *)

Module FeedFacts.
Import Sql Database Home Feed.
Local Open Scope Z_scope.

Lemma goes_before_total o a b :
  goes_before o a b = false -> goes_before o b a = true.
Proof.
  unfold goes_before.
  destruct a as [x|], b as [y|], (ascending o), (nullsFirst o) as [[]|]; simpl;
    try discriminate; try reflexivity; intros H;
    apply Z.leb_gt in H; apply Z.leb_le; lia.
Qed.

Lemma insert_row_HdRel o r r0 l :
  rows_in_order o r0 r -> HdRel (rows_in_order o) r0 l ->
  HdRel (rows_in_order o) r0 (insert_row o r l).
Proof.
  intros Hr Hl. destruct l as [|r' l]; simpl.
  - constructor. assumption.
  - destruct (goes_before o (sort_key o r) (sort_key o r')).
    + constructor. assumption.
    + constructor. inversion Hl; assumption.
Qed.

Lemma insert_row_Sorted o r l :
  Sorted (rows_in_order o) l -> Sorted (rows_in_order o) (insert_row o r l).
Proof.
  induction 1 as [|r' l Hs IH Hhd]; simpl.
  - repeat constructor.
  - destruct (goes_before o (sort_key o r) (sort_key o r')) eqn:Hb.
    + constructor; [constructor; assumption|]. constructor. exact Hb.
    + constructor; [exact IH|].
      apply insert_row_HdRel; [|assumption]. apply goes_before_total. exact Hb.
Qed.

Lemma order_by_Sorted o l : Sorted (rows_in_order o) (order_by o l).
Proof.
  induction l as [|r l IH]; simpl; [constructor|]. apply insert_row_Sorted, IH.
Qed.

Lemma insert_row_perm o r l : Permutation (insert_row o r l) (r :: l).
Proof.
  induction l as [|r' l IH]; simpl; [reflexivity|].
  destruct (goes_before _ _ _); [reflexivity|].
  rewrite IH. apply perm_swap.
Qed.

Lemma order_by_perm o l : Permutation (order_by o l) l.
Proof.
  induction l as [|r l IH]; simpl; [reflexivity|].
  rewrite insert_row_perm. constructor. exact IH.
Qed.

Lemma project_Sorted o d l :
  column o = by_created_at ->
  Sorted (rows_in_order o) l -> Sorted (in_order o) (List.map (project d) l).
Proof.
  intros Hcol.
  induction 1 as [|r l Hs IH Hhd]; simpl; constructor; [exact IH|].
  destruct Hhd as [|r' l Hrr']; simpl; constructor.
  unfold rows_in_order, sort_key in Hrr'. rewrite Hcol in Hrr'. exact Hrr'.
Qed.

Lemma Sorted_adjacent {A} (R : A -> A -> Prop) (l : list A) :
  Sorted R l ->
  forall i p q, l !! i = Some p -> l !! S i = Some q -> R p q.
Proof.
  induction 1 as [|x l Hs IH Hhd]; intros i p q Hp Hq; [discriminate|].
  destruct i as [|i]; simpl in *.
  - injection Hp as ->. destruct Hhd as [|y l Hxy]; [discriminate|].
    simpl in Hq. injection Hq as ->. exact Hxy.
  - eapply IH; eassumption.
Qed.

Lemma descending_undated_then_newest posts :
  Sorted (in_order fetchPosts_order) posts -> undated_then_newest posts.
Proof.
  intros Hs i p q Hp Hq.
  pose proof (Sorted_adjacent _ _ Hs i p q Hp Hq) as H.
  unfold in_order, goes_before in H. simpl in H.
  destruct (created_at p) as [a|], (created_at q) as [b|]; simpl in H;
    try exact I; try discriminate.
  apply Z.leb_le. exact H.
Qed.

Lemma dated_newest_first posts :
  undated_then_newest posts ->
  (forall p, p ∈ posts -> created_at p <> None) ->
  newest_first posts.
Proof.
  intros Hs Hdated i p q Hp Hq. specialize (Hs i p q Hp Hq).
  assert (Hpin : p ∈ posts) by (apply list_elem_of_lookup; eauto).
  assert (Hqin : q ∈ posts) by (apply list_elem_of_lookup; eauto).
  apply Hdated in Hpin. apply Hdated in Hqin.
  destruct (created_at p) as [a|]; [|congruence].
  destruct (created_at q) as [b|]; [|congruence].
  eauto.
Qed.

Lemma refresh_Sorted posts f :
  Sorted (in_order fetchPosts_order) posts ->
  Sorted (in_order fetchPosts_order) (refresh posts f).
Proof.
  intros Hs. unfold refresh, fetchPosts, serve.
  destruct (failure f); simpl; [exact Hs|].
  apply project_Sorted; [reflexivity | apply order_by_Sorted].
Qed.

Lemma posts_after_Sorted fs : Sorted (in_order fetchPosts_order) (posts_after fs).
Proof.
  unfold posts_after.
  assert (Hgen : forall posts, Sorted (in_order fetchPosts_order) posts ->
                   Sorted (in_order fetchPosts_order) (fold_left refresh fs posts)).
  { induction fs as [|f fs IH]; intros posts Hs; simpl; [exact Hs|].
    apply IH, refresh_Sorted, Hs. }
  apply Hgen. constructor.
Qed.

(** C10 (amended). [fetchPosts] asks for created_at descending; a fetch that
    succeeds stores the rows the requester may see, reordered by the
    server.  After any sequence of fetches the posts list of the component
    is in the server's order: the posts without a timestamp first, then
    newest first; and when every post in it carries a timestamp, created_at
    of each post is at least created_at of the next. *)
Theorem fetchPosts_newest_first :
  column fetchPosts_order = by_created_at /\
  ascending fetchPosts_order = false /\
  (forall posts uid d,
     fetchPosts (serve None uid d fetchPosts_order) posts
     = List.map (project d) (order_by fetchPosts_order (select_posts uid d))) /\
  (forall uid d,
     Permutation (order_by fetchPosts_order (select_posts uid d)) (select_posts uid d)) /\
  (forall fs, undated_then_newest (posts_after fs)) /\
  (forall fs,
     (forall p, p ∈ posts_after fs -> created_at p <> None) ->
     newest_first (posts_after fs)).
Proof.
  split; [reflexivity|]. split; [reflexivity|]. split; [reflexivity|]. split; [|split].
  - intros. apply order_by_perm.
  - intros fs. apply descending_undated_then_newest, posts_after_Sorted.
  - intros fs Hdated. apply dated_newest_first; [|exact Hdated].
    apply descending_undated_then_newest, posts_after_Sorted.
Qed.

Import FeedScenario.

(** The timeline without the undated post: 9, 7, 5. *)
Lemma fetchPosts_newest_first_witness :
  List.map created_at (posts_after dated_fetch) = [Some 9; Some 7; Some 5] /\
  newest_first (posts_after dated_fetch).
Proof.
  split; [reflexivity|].
  apply (proj2 (proj2 (proj2 (proj2 (proj2 fetchPosts_newest_first)))) dated_fetch).
  intros p Hp. apply list_elem_of_In in Hp. vm_compute in Hp.
  intuition (subst; discriminate).
Defined.

(** A post whose created_at is NULL is allowed by the schema and sorts
    first: the fetched list starts NULL, 9, and its first two posts are not
    in the claimed order. *)
Lemma undated_post_comes_first :
  forallb Posts.privacy_check (posts timeline) = true /\
  List.map created_at (posts_after one_fetch) = [None; Some 9; Some 7; Some 5] /\
  ~ newest_first (posts_after one_fetch).
Proof.
  split; [reflexivity|]. split; [reflexivity|].
  intros H.
  destruct (H 0%nat _ _ eq_refl eq_refl) as (a & b & Ha & _).
  discriminate.
Qed.

End FeedFacts.

(** ** The auth store *)

Module AuthStoreFacts.
Import AuthStore.

(** C9. A signUp call that succeeds leaves [user] (and [loading]) as they
    were - null in a signed-out store - and sets [verificationSent]; one
    that fails changes nothing.  Signing in takes another call. *)
Theorem signUp_does_not_sign_in :
  (forall s,
     fst (signUp None s) = inl tt /\
     user (snd (signUp None s)) = user s /\
     loading (snd (signUp None s)) = loading s /\
     verificationSent (snd (signUp None s)) = true) /\
  user (snd (signUp None initial)) = None /\
  (forall e s, signUp (Some e) s = (inr e, s)).
Proof. repeat split. Qed.

End AuthStoreFacts.

(** ** Which message a rejected field shows *)

Module MessageFacts.
Import Js Regex Zod Validation Vocabulary RegexFacts ValidationFacts.

Lemma search_misses k (P : N -> Prop) s :
  (forall c, cls_match false k c = true <-> P c) ->
  ~ contains P s -> negb (test (search_class k) s) = true.
Proof.
  intros HP Hno. destruct (negb (test (search_class k) s)) eqn:Ht; [reflexivity|].
  apply (search_contains k P s HP) in Ht. contradiction.
Qed.

Lemma search_hits k (P : N -> Prop) s :
  (forall c, cls_match false k c = true <-> P c) ->
  contains P s -> negb (test (search_class k) s) = false.
Proof. intros HP Hc. apply (search_contains k P s HP). exact Hc. Qed.

(** X1. The message of a rejected password is that of the first rule it
    breaks, in the order length, uppercase, lowercase, digit, special. *)
Theorem password_first_message :
  forall emailRegex s,
    ((length s < 8)%nat ->
     exists rest, safeParse emailRegex passwordSchema s
       = Failure "Password must be at least 8 characters" rest) /\
    ((8 <= length s)%nat -> ~ contains uppercase_letter s ->
     exists rest, safeParse emailRegex passwordSchema s
       = Failure "Password must contain at least one uppercase letter" rest) /\
    ((8 <= length s)%nat -> contains uppercase_letter s ->
     ~ contains lowercase_letter s ->
     exists rest, safeParse emailRegex passwordSchema s
       = Failure "Password must contain at least one lowercase letter" rest) /\
    ((8 <= length s)%nat -> contains uppercase_letter s ->
     contains lowercase_letter s -> ~ contains decimal_digit s ->
     exists rest, safeParse emailRegex passwordSchema s
       = Failure "Password must contain at least one number" rest) /\
    ((8 <= length s)%nat -> contains uppercase_letter s ->
     contains lowercase_letter s -> contains decimal_digit s ->
     ~ contains (fun c => ~ alphanumeric c) s ->
     safeParse emailRegex passwordSchema s
       = Failure "Password must contain at least one special character" []).
Proof.
  intros emailRegex s.
  unfold safeParse, issues, passwordSchema, z_string, min, regex,
    re_upper, re_lower, re_digit, re_special.
  cbn [app List.filter violated].
  repeat split.
  - intros Hlen. apply Nat.ltb_lt in Hlen. rewrite Hlen. simpl. eauto.
  - intros Hlen Hu. apply Nat.ltb_ge in Hlen. rewrite Hlen.
    rewrite (search_misses _ _ s class_upper Hu). simpl. eauto.
  - intros Hlen Hu Hl. apply Nat.ltb_ge in Hlen. rewrite Hlen.
    rewrite (search_hits _ _ s class_upper Hu), (search_misses _ _ s class_lower Hl).
    simpl. eauto.
  - intros Hlen Hu Hl Hd. apply Nat.ltb_ge in Hlen. rewrite Hlen.
    rewrite (search_hits _ _ s class_upper Hu), (search_hits _ _ s class_lower Hl),
      (search_misses _ _ s class_digit Hd).
    simpl. eauto.
  - intros Hlen Hu Hl Hd Hs. apply Nat.ltb_ge in Hlen. rewrite Hlen.
    rewrite (search_hits _ _ s class_upper Hu), (search_hits _ _ s class_lower Hl),
      (search_hits _ _ s class_digit Hd), (search_misses _ _ s class_special Hs).
    reflexivity.
Qed.

(** "abc12345" is long enough and has no uppercase letter. *)
Lemma password_first_message_witness :
  exists rest, safeParse emailRegex_3_23 passwordSchema (lit "abc12345")
    = Failure "Password must contain at least one uppercase letter" rest.
Proof.
  apply (proj1 (proj2 (password_first_message emailRegex_3_23 (lit "abc12345")))).
  - simpl. lia.
  - intros (c & Hin & Hc). apply list_elem_of_In in Hin. simpl in Hin.
    unfold uppercase_letter in Hc. intuition (subst; lia).
Defined.

(** X2. An address the email pattern does not match is reported as invalid
    whatever its length; a code that is not 6 long is reported as such
    whatever it contains, and a 6-long code with a non-digit is reported for
    its characters. *)
Theorem email_and_code_first_message :
  forall emailRegex s,
    (test emailRegex s = false ->
     exists rest, safeParse emailRegex emailSchema s
       = Failure "Please enter a valid email address" rest) /\
    (test emailRegex s = true -> (length s < 5)%nat ->
     safeParse emailRegex emailSchema s
       = Failure "Email must be at least 5 characters" []) /\
    (test emailRegex s = true -> (64 < length s)%nat ->
     safeParse emailRegex emailSchema s
       = Failure "Email must not exceed 64 characters" []) /\
    (length s <> 6%nat ->
     exists rest, safeParse emailRegex verificationCodeSchema s
       = Failure "Verification code must be 6 digits" rest) /\
    (length s = 6%nat -> (exists c, c ∈ s /\ ~ decimal_digit c) ->
     safeParse emailRegex verificationCodeSchema s
       = Failure "Verification code must contain only numbers" []).
Proof.
  intros emailRegex s.
  unfold safeParse, issues, emailSchema, verificationCodeSchema, z_string,
    email, min, max, length_, regex.
  cbn [app List.filter violated].
  repeat split.
  - intros ->. simpl. eauto.
  - intros -> Hlen. simpl.
    assert (H5 : (length s <? 5)%nat = true) by (apply Nat.ltb_lt; lia).
    assert (H64 : (64 <? length s)%nat = false) by (apply Nat.ltb_ge; lia).
    rewrite H5, H64. reflexivity.
  - intros -> Hlen. simpl.
    assert (H5 : (length s <? 5)%nat = false) by (apply Nat.ltb_ge; lia).
    assert (H64 : (64 <? length s)%nat = true) by (apply Nat.ltb_lt; lia).
    rewrite H5, H64. reflexivity.
  - intros Hlen. apply Nat.eqb_neq in Hlen. rewrite Hlen. simpl. eauto.
  - intros Hlen (c & Hin & Hc). rewrite Hlen. simpl.
    destruct (test re_digits_only s) eqn:Ht; [|reflexivity].
    unfold re_digits_only in Ht. apply test_all_of_class in Ht as [_ Hall].
    rewrite list.Forall_forall in Hall. apply Hall in Hin.
    apply class_digit in Hin. contradiction.
Qed.

(** "12a456" has six code units and a letter among them. *)
Lemma email_and_code_first_message_witness :
  safeParse emailRegex_3_23 verificationCodeSchema (lit "12a456")
    = Failure "Verification code must contain only numbers" [].
Proof.
  apply (proj2 (proj2 (proj2 (proj2
           (email_and_code_first_message emailRegex_3_23 (lit "12a456")))))).
  - reflexivity.
  - exists 97. split.
    + apply list_elem_of_In. simpl. auto.
    + unfold decimal_digit. lia.
Defined.

End MessageFacts.

(** ** More on the policies and the trigger *)

Module PolicyExtras.
Import Sql Database Vocabulary SqlFacts PolicyFacts Scenarios MoreScenarios.

(** X3. The owner sees every post of theirs; a post that is neither public
    nor for friends (private, or without a privacy value) is seen by the
    owner only; a requester without identity sees exactly the public
    posts. *)
Theorem posts_owner_and_anonymous :
  (forall d r, post_visible (Some (Posts.user_id r)) d r = true) /\
  (forall uid d r,
     Posts.privacy r <> Some "public"%string ->
     Posts.privacy r <> Some "friends"%string ->
     (post_visible uid d r = true <-> uid = Some (Posts.user_id r))) /\
  (forall d r,
     post_visible None d r = true <-> Posts.privacy r = Some "public"%string).
Proof.
  split; [|split].
  - intros d r. apply post_visible_iff. auto.
  - intros uid d r Hpub Hfr. rewrite post_visible_iff. split.
    + intros [H | [H | [H _]]]; [contradiction | assumption | contradiction].
    + auto.
  - intros d r. rewrite post_visible_iff. split.
    + intros [H | [H | (_ & f & _ & _ & u & H & _)]]; [assumption | discriminate..].
    + auto.
Qed.

(** Bob's diary is private: alice, although his friend, does not see it. *)
Lemma posts_owner_and_anonymous_witness :
  post_visible (Some alice) one_friendship bobs_diary = true <->
  Some alice = Some (Posts.user_id bobs_diary).
Proof.
  apply (proj1 (proj2 posts_owner_and_anonymous) (Some alice) one_friendship bobs_diary);
    discriminate.
Defined.

(** X4. Friends-only visibility is symmetric: each of two people sees the
    other's friends-only posts exactly when the other sees theirs,
    whichever of them sent the request. *)
Theorem friends_visibility_symmetric :
  forall d r1 r2,
    Posts.privacy r1 = Some "friends"%string ->
    Posts.privacy r2 = Some "friends"%string ->
    post_visible (Some (Posts.user_id r2)) d r1
    = post_visible (Some (Posts.user_id r1)) d r2.
Proof.
  intros d r1 r2 H1 H2. apply eq_true_iff_eq. rewrite !post_visible_iff.
  assert (Hsym : forall f a b, links f a b -> links f b a).
  { intros f a b [[? ?] | [? ?]]; [right | left]; auto. }
  split.
  - intros [H | [[= H] | (_ & f & Hin & Hacc & u & [= <-] & Hl)]].
    + congruence.
    + right; left. congruence.
    + right; right. split; [assumption|]. exists f. eauto 10.
  - intros [H | [[= H] | (_ & f & Hin & Hacc & u & [= <-] & Hl)]].
    + congruence.
    + right; left. congruence.
    + right; right. split; [assumption|]. exists f. eauto 10.
Qed.

(** Alice sent the request; bob sees her friends-only post as she sees his. *)
Lemma friends_visibility_symmetric_witness :
  post_visible (Some bob) one_friendship alices_post
  = post_visible (Some alice) one_friendship bobs_post.
Proof.
  apply (friends_visibility_symmetric one_friendship alices_post bobs_post); reflexivity.
Defined.

(** X5. A requester reads exactly the friendships rows they are part of; a
    requester without identity reads none. *)
Theorem friendships_select_policy :
  (forall uid d f,
     f ∈ visible_friendships uid d <-> f ∈ friendships d /\ participant uid f) /\
  (forall d, visible_friendships None d = []).
Proof.
  split.
  - intros uid d f. unfold visible_friendships.
    rewrite !list_elem_of_In, filter_In, select_participant. tauto.
  - intros d. unfold visible_friendships.
    induction (friendships d) as [|f t IH]; simpl; [reflexivity|]. exact IH.
Qed.

(** X6. The insert policy looks at sender_id only: a requester who inserts a
    row in their own name with status 'accepted' sees the receiver's
    friends-only posts from then on, without the receiver doing anything. *)
Theorem accepted_on_insert_opens_posts :
  forall u new d d' r,
    insert_friendship (Some u) new d = Ok d' ->
    Friendships.status new = Some "accepted"%string ->
    Posts.privacy r = Some "friends"%string ->
    Posts.user_id r = Friendships.receiver_id new ->
    post_visible (Some u) d' r = true.
Proof.
  intros u new d d' r Hins Hst Hpriv Hown.
  unfold insert_friendship in Hins.
  destruct (holds (Friendships.insert_check (Some u) new)) eqn:Hc; [|discriminate].
  simpl in Hins.
  destruct (Friendships.constraint_error _); [discriminate|].
  destruct (friendships_fk_error d new); [discriminate|].
  injection Hins as <-.
  unfold Friendships.insert_check in Hc. apply holds_eq3_Some in Hc.
  injection Hc as Hc.
  apply post_visible_iff. right; right. split; [assumption|].
  exists new. split; [simpl; apply elem_of_app; right; constructor|].
  split; [exact Hst|]. exists u. split; [reflexivity|].
  left. split; [symmetry; assumption | symmetry; assumption].
Qed.

(** Carol, who has no friendship with bob, inserts an accepted row and sees
    his post. *)
Lemma accepted_on_insert_opens_posts_witness :
  post_visible (Some carol) no_friendship bobs_post = false /\
  post_visible (Some carol)
    (with_friendships [carol_befriends_bob] no_friendship) bobs_post = true.
Proof.
  split; [reflexivity|].
  apply (accepted_on_insert_opens_posts carol carol_befriends_bob no_friendship);
    reflexivity.
Defined.

(** X7. An UPDATE of a friendships row by a requester who is not one of its
    two participants changes nothing and reports no error. *)
Theorem update_by_outsider_is_noop :
  forall uid target a d,
    friendships_valid d ->
    (forall f, f ∈ friendships d -> Friendships.id f = target -> ~ participant uid f) ->
    update_friendships uid target a d = Ok d.
Proof.
  intros uid target a d [Hc Hfk] Hout.
  assert (Hno : forall f, In f (friendships d) -> touched uid target f = false).
  { intros f Hin. apply not_true_is_false. rewrite touched_iff. intros [Hid Hp].
    apply (Hout f); [apply list_elem_of_In|..]; assumption. }
  unfold update_friendships.
  assert (Hmap : List.map (fun r => if touched uid target r
                                    then Friendships.apply a r else r) (friendships d)
                 = friendships d).
  { rewrite <- (map_id (friendships d)) at 2. apply map_ext_in.
    intros f Hin. rewrite (Hno f Hin). reflexivity. }
  rewrite Hmap.
  assert (Hall : forallb (fun r => implb (touched uid target r)
                   (holds (Friendships.update_check uid (Friendships.apply a r))))
                   (friendships d) = true).
  { apply forallb_forall. intros f Hin. rewrite (Hno f Hin). reflexivity. }
  rewrite Hall. simpl. rewrite Hc, Hfk. destruct d; reflexivity.
Qed.

(** Carol tries to reject the friendship of alice and bob. *)
Lemma update_by_outsider_is_noop_witness :
  update_friendships (Some carol) 10 (Friendships.only_status "rejected") one_friendship
  = Ok one_friendship.
Proof.
  apply update_by_outsider_is_noop.
  - split; reflexivity.
  - intros f Hf _ [H | H]; apply list_elem_of_singleton in Hf; subst f; discriminate.
Defined.

(** X8. A participant cannot write themselves out of a row: an UPDATE after
    which the requester is neither sender nor receiver is refused. *)
Theorem update_must_keep_requester :
  forall uid target a d f,
    f ∈ friendships d -> Friendships.id f = target -> participant uid f ->
    ~ participant uid (Friendships.apply a f) ->
    update_friendships uid target a d = Err (rls_violation "friendships").
Proof.
  intros uid target a d f Hin Hid Hp Hnp. unfold update_friendships.
  destruct (forallb _ (friendships d)) eqn:Hall; [|reflexivity].
  rewrite forallb_forall in Hall. apply list_elem_of_In in Hin.
  specialize (Hall f Hin).
  assert (Ht : touched uid target f = true) by (apply touched_iff; auto).
  rewrite Ht in Hall. simpl in Hall.
  apply using_participant in Hall. contradiction.
Qed.

(** Alice tries to put carol in her place as the sender. *)
Lemma update_must_keep_requester_witness :
  update_friendships (Some alice) 10 hand_over_to_carol pending_request
  = Err (rls_violation "friendships").
Proof.
  apply (update_must_keep_requester (Some alice) 10 hand_over_to_carol pending_request
           alice_asks_bob).
  - constructor.
  - reflexivity.
  - left. reflexivity.
  - intros [H | H]; discriminate.
Defined.

(** X9. The trigger keeps identities and profiles in step: when the ids of
    the profiles are those of the identities, in order, before a successful
    insert of an identity, they are so after it, without duplicates; posts
    and friendships are not touched. *)
Theorem trigger_keeps_profiles_in_step :
  forall jsonb_out now new d d',
    insert_auth_user jsonb_out now new d = Ok d' ->
    List.map Profiles.id (profiles d) = List.map AuthUsers.id (auth_users d) ->
    NoDup (List.map AuthUsers.id (auth_users d)) ->
    List.map Profiles.id (profiles d') = List.map AuthUsers.id (auth_users d') /\
    NoDup (List.map AuthUsers.id (auth_users d')) /\
    posts d' = posts d /\ friendships d' = friendships d.
Proof.
  intros jsonb_out now new d d' Hins Hids Hnd.
  unfold insert_auth_user, handle_new_user, insert_profile_definer in Hins.
  destruct (bool_decide_reflect
              (AuthUsers.id new ∈ List.map AuthUsers.id (auth_users d))) as [|Hfresh];
    [discriminate|].
  destruct (AuthUsers.email new) as [name|]; [|discriminate].
  repeat (destruct (bool_decide _); simpl in Hins; try discriminate).
  injection Hins as <-. simpl.
  rewrite !List.map_app, Hids. simpl. repeat split; try reflexivity.
  apply NoDup_app. split; [assumption|]. split.
  - intros x Hx Hx'. apply list_elem_of_singleton in Hx'. subst x. contradiction.
  - apply NoDup_singleton.
Qed.

(** Dave registers in the example database. *)
Lemma trigger_keeps_profiles_in_step_witness :
  exists d',
    insert_auth_user (fun _ => ""%string) 99%Z dave no_friendship = Ok d' /\
    List.map Profiles.id (profiles d') = [alice; bob; carol; 4] /\
    List.map AuthUsers.id (auth_users d') = [alice; bob; carol; 4].
Proof.
  eexists. split; [reflexivity|].
  destruct (trigger_keeps_profiles_in_step (fun _ => ""%string) 99%Z dave no_friendship
              _ eq_refl eq_refl) as (H1 & _).
  - apply (bool_decide_unpack _). exact I.
  - split; reflexivity.
Defined.

(** X10. An identity whose email is already the username of a profile, or
    that has no email, cannot be created: the trigger's insert fails and
    with it the insert of the identity. *)
Theorem identity_with_taken_email_is_refused :
  forall jsonb_out now new d,
    (AuthUsers.email new = None \/
     exists p, p ∈ profiles d /\ Some (Profiles.username p) = AuthUsers.email new) ->
    exists e, insert_auth_user jsonb_out now new d = Err e.
Proof.
  intros jsonb_out now new d [Hnone | (p & Hin & Hname)].
  - apply identity_without_email_is_refused. assumption.
  - unfold insert_auth_user, handle_new_user, insert_profile_definer.
    destruct (bool_decide _); [eauto|]. rewrite <- Hname. simpl.
    destruct (bool_decide _); [eauto|].
    rewrite bool_decide_eq_true_2; [eauto|].
    apply list_elem_of_In, in_map, list_elem_of_In. assumption.
Qed.

(** A second sign-up with bob's email. *)
Lemma identity_with_taken_email_is_refused_witness :
  insert_auth_user (fun _ => ""%string) 99%Z bob_again no_friendship
  = Err (unique_violation "profiles_username_key").
Proof.
  destruct (identity_with_taken_email_is_refused (fun _ => ""%string) 99%Z bob_again
              no_friendship) as [e He].
  - right. exists (profile_of bob "bob@example.com"). split; [|reflexivity].
    apply list_elem_of_In. simpl. auto.
  - reflexivity.
Defined.

End PolicyExtras.

(** ** The store over time and the private routes *)

Module SessionFacts.
Import AuthStore Session SessionScenario.

Lemma step_keeps_flags s e :
  (verificationSent s = true -> verificationSent (store_step s e) = true) /\
  (loading s = false -> loading (store_step s e) = false).
Proof.
  destruct e as [r|r|r|r|r|r|session]; try destruct r; simpl; auto.
Qed.

(** X11. Nothing in the store ever clears [verificationSent] or turns
    [loading] back on: once the one is true and the other false they stay
    so through any sequence of actions and notifications. *)
Theorem store_flags_never_go_back :
  forall es s,
    (verificationSent s = true -> verificationSent (store_run s es) = true) /\
    (loading s = false -> loading (store_run s es) = false).
Proof.
  unfold store_run. induction es as [|e es IH]; intros s; simpl; [auto|].
  destruct (step_keeps_flags s e) as [Hv Hl].
  destruct (IH (store_step s e)) as [IHv IHl]. auto.
Qed.

(** After signing up, the flag survives signing in and out again. *)
Lemma store_flags_never_go_back_witness :
  verificationSent
    (store_run (store_step initial (CallSignUp None))
       [CallSignIn None; AuthStateChange (Some alice_session); CallSignOut None]) = true.
Proof.
  apply (proj1 (store_flags_never_go_back
                  [CallSignIn None; AuthStateChange (Some alice_session); CallSignOut None]
                  (store_step initial (CallSignUp None)))).
  reflexivity.
Defined.

(** X12. Only a notification of the listener or an accepted sign-out writes
    [user]: any sequence of other calls - sign-in, sign-up, OTP
    verification, password reset, failed sign-out - leaves it as it was. *)
Theorem calls_do_not_sign_in :
  forall es s,
    forallb (fun e => negb (writes_user e)) es = true ->
    user (store_run s es) = user s.
Proof.
  unfold store_run. induction es as [|e es IH]; intros s Hes; simpl; [reflexivity|].
  simpl in Hes. apply andb_true_iff in Hes as [He Hes].
  rewrite (IH _ Hes).
  destruct e as [r|r|r|r|r|r|session]; try destruct r; simpl in *;
    try reflexivity; discriminate.
Qed.

(** Sign-up, verification and sign-in accepted by the service, no
    notification yet: still no user. *)
Lemma calls_do_not_sign_in_witness :
  user (store_run initial calls_only) = None.
Proof.
  apply (calls_do_not_sign_in calls_only initial). reflexivity.
Defined.

Lemma notified_not_loading es :
  forall s, existsb is_notification es = true -> loading (store_run s es) = false.
Proof.
  induction es as [|e es IH]; intros s Hes; simpl in Hes; [discriminate|].
  destruct (is_notification e) eqn:He; simpl in Hes.
  - destruct e; try discriminate. unfold store_run. simpl.
    apply store_flags_never_go_back. reflexivity.
  - unfold store_run. simpl. apply IH. assumption.
Qed.

(** X13. A private route of a fresh store shows the spinner until the first
    notification, whatever is called meanwhile; from the first notification
    on it shows the page inside the layout when a user is held and
    redirects to /auth when none is, and never the spinner again. *)
Theorem private_route_after_notification :
  forall es children,
    (forallb (fun e => negb (is_notification e)) es = true ->
     PrivateRoute (store_run initial es) children = Spinner) /\
    (forall s,
       existsb is_notification es = true ->
       PrivateRoute (store_run s es) children
       = match user (store_run s es) with
         | Some _ => InLayout children
         | None => NavigateTo "/auth"
         end).
Proof.
  intros es children. split.
  - intros Hes. unfold PrivateRoute.
    assert (Hl : forall s, loading s = true -> loading (store_run s es) = true).
    { unfold store_run. clear children. induction es as [|e es IH]; intros s Hs; simpl; [assumption|].
      simpl in Hes. apply andb_true_iff in Hes as [He Hes].
      apply (IH Hes).
      destruct e as [r|r|r|r|r|r|session]; try destruct r; simpl in *;
        try assumption; discriminate. }
    rewrite (Hl initial eq_refl). reflexivity.
  - intros s Hes. unfold PrivateRoute.
    rewrite (notified_not_loading es s Hes). reflexivity.
Qed.

(** Alice after signing in and being notified: the feed, in the layout. *)
Lemma private_route_after_notification_witness :
  PrivateRoute (store_run initial calls_only) HomePage = Spinner /\
  PrivateRoute (store_run initial sign_up_then_in) HomePage = InLayout HomePage.
Proof.
  split.
  - apply (proj1 (private_route_after_notification calls_only HomePage)). reflexivity.
  - rewrite (proj2 (private_route_after_notification sign_up_then_in HomePage) initial);
      reflexivity.
Defined.

End SessionFacts.

(** ** Rendering the feed *)

Module RenderFacts.
Import Sql Database Home.

(** The render goes through exactly when every post has an author with a
    non-empty avatar_url. *)
Lemma render_Some_iff date posts :
  is_Some (render date posts) <->
  forall p, p ∈ posts ->
    exists author, profiles p = Some author /\ truthy (avatar_url author) = true.
Proof.
  induction posts as [|p rest IH]; simpl.
  - split; [intros _ q Hq; inversion Hq | eauto].
  - unfold render_post at 1. split.
    + intros Hsome q Hq.
      destruct (profiles p) as [author|] eqn:Hp; [|destruct Hsome; discriminate].
      destruct (truthy (avatar_url author)) eqn:Ha; [|destruct Hsome; discriminate].
      destruct (render date rest) as [cs|] eqn:Hr; [|destruct Hsome; discriminate].
      apply elem_of_cons in Hq as [-> | Hq]; [eauto|].
      apply IH; eauto.
    + intros Hall.
      destruct (Hall p ltac:(constructor)) as (author & -> & ->).
      assert (Hrest : is_Some (render date rest)).
      { apply IH. intros q Hq. apply Hall. constructor. exact Hq. }
      destruct Hrest as [cs ->]. eauto.
Qed.

(** When it goes through there is one card per post, in order. *)
Lemma render_keys date posts :
  match render date posts with
  | Some cards => List.map card_key cards = List.map id posts
  | None => True
  end.
Proof.
  induction posts as [|p rest IH]; simpl; [reflexivity|].
  unfold render_post at 1.
  destruct (profiles p) as [author|]; [|exact I].
  destruct (truthy (avatar_url author)); [|exact I].
  destruct (render date rest) as [cs|]; [|exact I].
  simpl. f_equal. exact IH.
Qed.

End RenderFacts.

(** ** Creating a post *)

Module HomePageFacts.
Import Js Sql Database Requests Home HomePage Vocabulary SqlFacts PolicyFacts FeedFacts.
Import RenderFacts.
Import Scenarios SessionScenario PageScenario.

Lemma trim_start_nil s :
  trim_start s = [] <-> Forall (fun c => is_space c = true) s.
Proof.
  induction s as [|c s IH]; simpl.
  - split; [constructor | reflexivity].
  - destruct (is_space c) eqn:Hc.
    + rewrite IH. split; [constructor; assumption | inversion 1; assumption].
    + split; [discriminate | inversion 1; congruence].
Qed.

Lemma trim_start_head s c t : trim_start s = c :: t -> is_space c = false.
Proof.
  induction s as [|c' s IH]; simpl; [discriminate|].
  destruct (is_space c') eqn:Hc; [exact IH|]. intros [= <- _]. exact Hc.
Qed.

(** The trimmed string is empty exactly when every code unit is white
    space. *)
Lemma trim_blank s : trim s = [] <-> Forall (fun c => is_space c = true) s.
Proof.
  unfold trim. split.
  - intros H. apply (f_equal (@rev N)) in H. rewrite rev_involutive in H. simpl in H.
    apply trim_start_nil in H. apply trim_start_nil.
    destruct (trim_start s) as [|c t] eqn:Hs; [reflexivity|].
    apply trim_start_head in Hs.
    apply Forall_rev in H. rewrite rev_involutive in H.
    inversion H; congruence.
  - intros H. apply trim_start_nil in H. rewrite H. reflexivity.
Qed.

(** X14. A draft that is empty or all white space is not sent: [createPost]
    leaves the database and the component as they are. *)
Theorem createPost_blank_is_ignored :
  forall to_text cl fresh now f1 f2 d v,
    Forall (fun c => is_space c = true) (content v) ->
    createPost to_text cl fresh now f1 f2 d v = (d, v).
Proof.
  intros to_text cl fresh now f1 f2 d v Hb. unfold createPost.
  apply trim_blank in Hb. rewrite bool_decide_eq_true_2 by assumption. reflexivity.
Qed.

(** Three spaces. *)
Lemma createPost_blank_is_ignored_witness :
  createPost ascii_text alice_client 200 50%Z None None no_friendship blank_draft
  = (no_friendship, blank_draft).
Proof.
  apply createPost_blank_is_ignored. repeat constructor.
Defined.

(** X15. A non-blank draft of a signed-in user whose profile exists is
    stored as a public post of that user, with a NULL image when the URL
    field is empty; the two inputs are cleared; every requester, signed in
    or not, may read the new row; and when the refresh succeeds the post is
    in the posts list of the component.  Home can render that list only if
    the author's profile has a non-empty avatar_url: otherwise the render
    throws. *)
Theorem createPost_publishes :
  forall to_text cl fresh now fetch_failure d v u usr,
    (exists c, c ∈ content v /\ is_space c = false) ->
    session cl = Some u -> user cl = Some usr -> AuthStore.user_id usr = u ->
    fresh ∉ List.map Posts.id (Database.posts d) ->
    u ∈ List.map Profiles.id (Database.profiles d) ->
    let new := Posts.Row fresh u (to_text (content v))
                 (match imageUrl v with [] => None | url => Some (to_text url) end)
                 (Some "public"%string) (Some now) (Some now) in
    let d' := with_posts (Database.posts d ++ [new]) d in
    let result := createPost to_text cl fresh now None fetch_failure d v in
    fst result = d' /\
    content (snd result) = [] /\ imageUrl (snd result) = [] /\
    (forall uid, post_visible uid d' new = true) /\
    (fetch_failure = None -> project d' new ∈ HomePage.posts (snd result)) /\
    (forall date,
       fetch_failure = None ->
       is_Some (render date (HomePage.posts (snd result))) ->
       exists author,
         embed_profile d' new = Some author /\
         truthy (Home.avatar_url author) = true).
Proof.
  intros to_text cl fresh now fetch_failure d v u usr (c & Hin & Hc) Hs Hu Hid
    Hfresh Hprof new d' result.
  assert (Hres : result =
    (d', {| HomePage.posts := fetchPosts (serve fetch_failure (Some u) d' fetchPosts_order)
                                (HomePage.posts v);
            content := []; imageUrl := [] |})).
  { subst result. unfold createPost.
    rewrite bool_decide_eq_false_2.
    2:{ rewrite trim_blank, list.Forall_forall. intros Hall.
        specialize (Hall c Hin). congruence. }
    rewrite Hs, Hu. simpl. rewrite Hid. unfold insert_post. simpl.
    rewrite (bool_decide_eq_true_2 (u = u) eq_refl). simpl.
    rewrite (bool_decide_eq_false_2 _ Hfresh), (bool_decide_eq_true_2 _ Hprof).
    reflexivity. }
  rewrite Hres. simpl.
  assert (Hvis : forall uid, post_visible uid d' new = true).
  { intros uid. apply post_visible_iff. left. reflexivity. }
  assert (Hheld : fetch_failure = None ->
                  project d' new ∈ fetchPosts (serve fetch_failure (Some u) d' fetchPosts_order)
                                     (HomePage.posts v)).
  { intros ->. simpl. apply list_elem_of_In, in_map.
    apply (Permutation_in _ (Permutation_sym (order_by_perm _ _))).
    unfold select_posts. apply filter_In. split; [|apply Hvis].
    simpl. apply in_or_app. right. left. reflexivity. }
  repeat split; try assumption.
  intros date Hok Hrender.
  apply (proj1 (render_Some_iff date _) Hrender (project d' new) (Hheld Hok)).
Qed.

(** Alice posts "hi all". *)
Lemma createPost_publishes_witness :
  fst (createPost ascii_text alice_client 200 50%Z None None no_friendship draft)
  = with_posts
      [bobs_post;
       Posts.Row 200 alice "hi all" None (Some "public"%string) (Some 50%Z) (Some 50%Z)]
      no_friendship.
Proof.
  apply (createPost_publishes ascii_text alice_client 200 50%Z None no_friendship draft
           alice alice_user).
  - exists 104. split; [apply list_elem_of_In; simpl; auto | reflexivity].
  - reflexivity.
  - reflexivity.
  - reflexivity.
  - intros H. apply list_elem_of_In in H. simpl in H. intuition discriminate.
  - apply list_elem_of_In. simpl. auto.
Defined.

(** X16. Without a user in the store, or when the store's user is not the
    identity of the session, nothing is stored and the draft stays in the
    inputs. *)
Theorem createPost_needs_matching_user :
  forall to_text cl fresh now f1 f2 d v,
    session cl <> (AuthStore.user_id <$> user cl) \/ user cl = None ->
    createPost to_text cl fresh now f1 f2 d v = (d, v).
Proof.
  intros to_text cl fresh now f1 f2 d v H. unfold createPost.
  destruct (bool_decide _); [reflexivity|].
  destruct f1; [reflexivity|].
  unfold insert_post.
  destruct (user cl) as [usr|]; simpl; [|reflexivity].
  destruct H as [H | H]; [|discriminate]. simpl in H.
  destruct (holds (Posts.insert_check (session cl) _)) eqn:Hc; [|reflexivity].
  unfold Posts.insert_check in Hc. simpl in Hc. apply holds_eq3_Some in Hc.
  contradiction.
Qed.

(** A draft sent while signed out. *)
Lemma createPost_needs_matching_user_witness :
  createPost ascii_text signed_out_client 200 50%Z None None no_friendship draft
  = (no_friendship, draft).
Proof.
  apply createPost_needs_matching_user. right. reflexivity.
Defined.

End HomePageFacts.

(** ** Editing a profile *)

Module ProfilePageFacts.
Import Sql Database Requests ProfilePage SqlFacts PolicyFacts.
Import Scenarios SessionScenario PageScenario.

Lemma profile_touched_iff uid target r :
  profile_touched uid target r = true <->
  Profiles.id r = target /\ uid = Some target.
Proof.
  unfold profile_touched, Profiles.update_using.
  rewrite andb_true_iff, bool_decide_eq_true, holds_eq3_Some.
  split; intros [H1 H2]; split; congruence.
Qed.

Lemma update_profile_ok uid target a d d' :
  update_profile uid target a d = Ok d' ->
  d' = with_profiles
         (List.map (fun r => if profile_touched uid target r then apply_profile a r else r)
                   (profiles d)) d /\
  forall r, r ∈ profiles d -> profile_touched uid target r = true ->
            Profiles.id (apply_profile a r) = Profiles.id r.
Proof.
  unfold update_profile.
  destruct (forallb _ (profiles d)) eqn:Hall; simpl; [|discriminate].
  destruct (bool_decide _); simpl; [|discriminate].
  destruct (bool_decide _); simpl; [|discriminate].
  intros [= <-]. split; [reflexivity|].
  intros r Hin Ht. rewrite forallb_forall in Hall.
  apply list_elem_of_In in Hin. specialize (Hall r Hin). rewrite Ht in Hall.
  simpl in Hall. unfold Profiles.update_using in Hall.
  apply holds_eq3_Some in Hall. apply profile_touched_iff in Ht as [Hid Huid].
  change (Profiles.id (apply_profile a r) = Profiles.id r). congruence.
Qed.

(** X17. A successful UPDATE of profiles touches no other table and no row
    but the targeted one, and a requester who is not the owner of the
    targeted row changes nothing.  The id of no row changes, whatever the
    statement assigns: the policy is applied to the updated row too.  A
    statement that assigns neither created_at nor updated_at - as the one
    the Profile component sends - leaves them as they were. *)
Theorem update_profile_frame :
  forall uid target a d d',
    update_profile uid target a d = Ok d' ->
    auth_users d' = auth_users d /\ posts d' = posts d /\
    friendships d' = friendships d /\
    (uid <> Some target -> profiles d' = profiles d) /\
    Forall2 (fun r r' =>
               Profiles.id r' = Profiles.id r /\
               (Profiles.id r <> target -> r' = r) /\
               (set_created_at a = None -> Profiles.created_at r' = Profiles.created_at r) /\
               (set_updated_at a = None -> Profiles.updated_at r' = Profiles.updated_at r) /\
               (forall f, a = assignment_of f ->
                  Profiles.created_at r' = Profiles.created_at r /\
                  Profiles.updated_at r' = Profiles.updated_at r))
            (profiles d) (profiles d').
Proof.
  intros uid target a d d' Hupd. apply update_profile_ok in Hupd as [-> Hid]. simpl.
  repeat split.
  - intros Hne. rewrite <- (map_id (profiles d)) at 2. apply map_ext.
    intros r. destruct (profile_touched uid target r) eqn:Ht; [|reflexivity].
    apply profile_touched_iff in Ht as [_ Ht]. contradiction.
  - induction (profiles d) as [|r t IH]; simpl; constructor.
    + destruct (profile_touched uid target r) eqn:Ht; simpl.
      * split; [apply Hid; [constructor | exact Ht]|].
        apply profile_touched_iff in Ht as [Ht _].
        split; [intros Hne; contradiction|].
        split; [intros ->; reflexivity|].
        split; [intros ->; reflexivity|].
        intros f ->. split; reflexivity.
      * repeat split; reflexivity.
    + apply IH. intros r' Hin. apply Hid. constructor. exact Hin.
Qed.

(** Bob saves alice's form against alice's row: accepted, and nothing has
    changed. *)
Lemma update_profile_frame_witness :
  profiles (with_profiles people no_friendship) = profiles no_friendship.
Proof.
  apply (proj1 (proj2 (proj2 (proj2
           (update_profile_frame (Some bob) alice
              (assignment_of (formData alice_edit)) no_friendship
              (with_profiles people no_friendship) eq_refl))))).
  discriminate.
Defined.

Lemma filter_unique_id (l : list Profiles.row) r :
  NoDup (List.map Profiles.id l) -> r ∈ l ->
  List.filter (fun x => bool_decide (Profiles.id x = Profiles.id r)) l = [r].
Proof.
  induction l as [|x l IH]; intros Hnd Hin; [inversion Hin|].
  simpl in Hnd. apply NoDup_cons in Hnd as [Hx Hnd].
  assert (Hnone : forall y, (forall z, z ∈ l -> Profiles.id z <> y) ->
                    List.filter (fun x => bool_decide (Profiles.id x = y)) l = []).
  { clear. intros y. induction l as [|z l IH]; intros H; simpl; [reflexivity|].
    rewrite bool_decide_eq_false_2 by (apply H; constructor).
    apply IH. intros z' Hz'. apply H. constructor. assumption. }
  apply elem_of_cons in Hin as [-> | Hin]; simpl.
  - rewrite bool_decide_eq_true_2 by reflexivity. f_equal. apply Hnone.
    intros z Hz Heq. apply Hx. rewrite <- Heq.
    apply list_elem_of_In, in_map, list_elem_of_In. assumption.
  - rewrite bool_decide_eq_false_2; [apply IH; assumption|].
    intros Heq. apply Hx. rewrite Heq.
    apply list_elem_of_In, in_map, list_elem_of_In. assumption.
Qed.

Lemma select_after_update uid (g : Profiles.row -> Profiles.row) d r :
  (forall x, Profiles.id (g x) = Profiles.id x) ->
  NoDup (List.map Profiles.id (profiles d)) -> r ∈ profiles d ->
  select_profile_single uid (Profiles.id r) (with_profiles (List.map g (profiles d)) d)
  = Some (g r).
Proof.
  intros Hg Hnd Hin. unfold select_profile_single.
  assert (Hf : List.filter
                 (fun x => holds (Profiles.select_using uid x)
                           && bool_decide (Profiles.id x = Profiles.id r))
                 (profiles (with_profiles (List.map g (profiles d)) d))
               = List.map g
                   (List.filter (fun x => bool_decide (Profiles.id x = Profiles.id r))
                                (profiles d))).
  { simpl. clear Hnd Hin. induction (profiles d) as [|x l IH]; simpl; [reflexivity|].
    rewrite Hg. destruct (bool_decide (Profiles.id x = Profiles.id r)); simpl.
    - f_equal. exact IH.
    - exact IH. }
  rewrite Hf, (filter_unique_id _ r Hnd Hin). reflexivity.
Qed.

(** X18. Saving and reading back: when the signed-in user's UPDATE is
    accepted, the profile shown afterwards is the form's content (an empty
    field is stored as the empty string, not as NULL), the form is
    unchanged and editing is over. *)
Theorem updateProfile_round_trip :
  forall cl u d d' v,
    HomePage.user cl = Some u ->
    HomePage.session cl = Some (AuthStore.user_id u) ->
    NoDup (List.map Profiles.id (profiles d)) ->
    (exists r, r ∈ profiles d /\ Profiles.id r = AuthStore.user_id u) ->
    update_profile (Some (AuthStore.user_id u)) (AuthStore.user_id u)
      (assignment_of (formData v)) d = Ok d' ->
    updateProfile cl None None d v =
    (d', {| profile := Some {| username := form_username (formData v);
                               full_name := Some (form_full_name (formData v));
                               avatar_url := Some (form_avatar_url (formData v));
                               bio := Some (form_bio (formData v)) |};
            editing := false;
            formData := formData v |}).
Proof.
  intros cl u d d' v Hu Hs Hnd (r & Hin & Hid) Hupd.
  unfold updateProfile, fetchProfile. rewrite Hu, Hs, Hupd. simpl.
  apply update_profile_ok in Hupd as [-> _]. rewrite <- Hid.
  rewrite select_after_update; [|intros x; destruct (profile_touched _ _ x); reflexivity
                                |assumption..].
  assert (Ht : profile_touched (Some (Profiles.id r)) (Profiles.id r) r = true).
  { apply profile_touched_iff. auto. }
  rewrite Ht. simpl. destruct (formData v); reflexivity.
Qed.

(** Alice saves her form. *)
Lemma updateProfile_round_trip_witness :
  ProfilePage.profile
    (snd (updateProfile alice_client None None no_friendship alice_edit))
  = Some {| username := "alice"; full_name := Some "Alice A."%string;
            avatar_url := Some ""%string; bio := Some "likes roses"%string |}.
Proof.
  rewrite (updateProfile_round_trip alice_client alice_user no_friendship
             after_alice_saves alice_edit eq_refl eq_refl).
  - reflexivity.
  - apply (bool_decide_unpack _). exact I.
  - exists (profile_of alice "alice@example.com"). split; [constructor | reflexivity].
  - reflexivity.
Defined.

Lemma NoDup_map_inj {A B} (h : A -> B) (l : list A) x y :
  NoDup (List.map h l) -> x ∈ l -> y ∈ l -> h x = h y -> x = y.
Proof.
  induction l as [|a l IH]; intros Hnd Hx Hy Heq; [inversion Hx|].
  simpl in Hnd. apply NoDup_cons in Hnd as [Ha Hnd].
  apply elem_of_cons in Hx as [-> | Hx]; apply elem_of_cons in Hy as [-> | Hy].
  - reflexivity.
  - exfalso. apply Ha. rewrite Heq. apply list_elem_of_In, in_map, list_elem_of_In. assumption.
  - exfalso. apply Ha. rewrite <- Heq. apply list_elem_of_In, in_map, list_elem_of_In. assumption.
  - apply IH; assumption.
Qed.

(** X19. Choosing a username that another profile already has is refused:
    the database is unchanged and the form stays open with its content. *)
Theorem updateProfile_taken_username :
  forall cl u f1 f2 d v own other,
    HomePage.user cl = Some u ->
    HomePage.session cl = Some (AuthStore.user_id u) ->
    own ∈ profiles d -> Profiles.id own = AuthStore.user_id u ->
    other ∈ profiles d -> Profiles.id other <> AuthStore.user_id u ->
    Profiles.username other = form_username (formData v) ->
    updateProfile cl f1 f2 d v = (d, v).
Proof.
  intros cl u f1 f2 d v own other Hu Hs Hown Hid Hother Hoid Hname.
  unfold updateProfile. rewrite Hu, Hs. destruct f1; [reflexivity|].
  unfold update_profile.
  destruct (forallb _ (profiles d)); simpl; [|reflexivity].
  destruct (bool_decide (NoDup (List.map Profiles.id _))); simpl; [|reflexivity].
  rewrite bool_decide_eq_false_2; [reflexivity|].
  rewrite List.map_map. intros Hnd.
  assert (Heq : own = other).
  { eapply (NoDup_map_inj _ _ own other Hnd Hown Hother). simpl.
    assert (Ht : profile_touched (Some (AuthStore.user_id u)) (AuthStore.user_id u) own = true)
      by (apply profile_touched_iff; auto).
    assert (Hf : profile_touched (Some (AuthStore.user_id u)) (AuthStore.user_id u) other = false).
    { apply not_true_is_false. rewrite profile_touched_iff. intros [H _]. contradiction. }
    rewrite Ht, Hf. simpl. symmetry. exact Hname. }
  subst other. contradiction.
Qed.

(** Alice asks for bob's username. *)
Lemma updateProfile_taken_username_witness :
  updateProfile alice_client None None no_friendship alice_wants_bobs_name
  = (no_friendship, alice_wants_bobs_name).
Proof.
  apply (updateProfile_taken_username alice_client alice_user None None no_friendship
           alice_wants_bobs_name
           (profile_of alice "alice@example.com") (profile_of bob "bob@example.com")).
  - reflexivity.
  - reflexivity.
  - constructor.
  - reflexivity.
  - apply list_elem_of_In. simpl. auto.
  - discriminate.
  - reflexivity.
Defined.

End ProfilePageFacts.

(** ** More on the Auth form *)

Module AuthFormExtras.
Import Js Regex Zod Validation AuthStore AuthForm AuthScenario AuthTiming AuthFormFacts.
Local Open Scope Z_scope.

Ltac open_submit :=
  unfold commit, handleSubmit, try_catch_finally, catch_block, try_body, validate,
    bind, upd, await, throw, ret, signIn, signUp, verifyOtp, resetPassword,
    accepts, success in *; simpl in *.

Ltac split_cases :=
  repeat match goal with
         | |- context [safeParse ?r ?sch ?v] => destruct (safeParse r sch v); simpl in *
         | |- context [bool_decide ?P] => destruct (bool_decide P); simpl in *
         | |- context [locked_out ?n ?c] => destruct (locked_out n c); simpl in *
         | |- context [4 <=? ?a] => destruct (4 <=? a); simpl in *
         | |- context [match ?resp with Some _ => _ | None => _ end] =>
             is_var resp; destruct resp; simpl in *
         | |- context [mode (form ?w)] => destruct (mode (form w)); simpl in *
         end.

(** X20. An address the email validator rejects stops the submission before
    any call: the outcome does not depend on what the identity service
    would have answered, and the store is untouched. *)
Theorem invalid_email_makes_no_call :
  forall emailRegex now shown later clock resp resp' w,
    accepts emailRegex emailSchema (email (fields (form w))) = false ->
    step emailRegex w (Submit now shown later clock resp)
    = step emailRegex w (Submit now shown later clock resp') /\
    store (step emailRegex w (Submit now shown later clock resp)) = store w.
Proof.
  intros emailRegex now shown later clock resp resp' w H. simpl. open_submit.
  destruct (safeParse emailRegex emailSchema (email (fields (form w)))); [discriminate|].
  simpl. split_cases; split; reflexivity.
Qed.

(** "x@y" in the login form: refused or accepted by the service, the same. *)
Lemma invalid_email_makes_no_call_witness :
  step emailRegex_3_23 bad_address (Submit 1000 1010 1200 1210 refused)
  = step emailRegex_3_23 bad_address (Submit 1000 1010 1200 1210 None).
Proof.
  apply (invalid_email_makes_no_call emailRegex_3_23 1000 1010 1200 1210 refused None
           bad_address).
  reflexivity.
Defined.

(** X21. Outside a lockout every failed submission - a rejected field as
    well as a refusal of the service - adds exactly one to the counter.
    Below the fifth failure the lockout is left alone and the failure's own
    message is shown; from the fifth on the lockout is set to five minutes
    after the failure. *)
Theorem failed_submission_counts :
  forall emailRegex now shown later clock resp w e,
    locked_out now (form w) = false ->
    clock <= later + 300000 ->
    try_result emailRegex resp w = inr e ->
    let w' := step emailRegex w (Submit now shown later clock resp) in
    attempts (form w') = attempts (form w) + 1 /\
    (attempts (form w) + 1 < 5 ->
     lockoutUntil (form w') = lockoutUntil (form w) /\
     error (form w') = Some (Text match e with
                                  | ErrorOf m => m
                                  | NotAnError => "An error occurred"
                                  end)) /\
    (5 <= attempts (form w) + 1 ->
     lockoutUntil (form w') = Some (later + 300000)).
Proof.
  intros emailRegex now shown later clock resp w e Hl Hclock Hr w'. subst w'.
  rewrite (commit_keeps_counter emailRegex now shown later clock resp w Hclock).
  pose proof (handleSubmit_failure emailRegex now shown later resp w e Hl Hr)
    as (Hinc & Hlow & Hhigh).
  split; [exact Hinc|]. split.
  - intros Hlt. apply Hlow. lia.
  - intros Hge. apply Hhigh. lia.
Qed.

(** The first refused sign-in. *)
Lemma failed_submission_counts_witness :
  attempts (form (step emailRegex_3_23 typed_in (Submit 1000 1010 1200 1210 refused)))
  = attempts (form typed_in) + 1.
Proof.
  apply (failed_submission_counts emailRegex_3_23 1000 1010 1200 1210 refused typed_in
           (ErrorOf "Invalid login credentials")).
  - reflexivity.
  - lia.
  - reflexivity.
Defined.

Lemma ceil_seconds_bounds ms :
  (0 < ms -> 1 <= ceil_seconds ms) /\
  (-1000 < ms <= 0 -> ceil_seconds ms = 0) /\
  (ms <= 300000 -> ceil_seconds ms <= 300).
Proof.
  unfold ceil_seconds.
  pose proof (Z.div_mod (- ms) 1000 ltac:(lia)) as Hdm.
  pose proof (Z.mod_pos_bound (- ms) 1000 ltac:(lia)) as Hm.
  repeat split; intros; lia.
Qed.

(** X22. While the lockout lasts a submission validates nothing and calls
    nothing: only the two messages change, whatever the inputs and the
    service.  The countdown is computed from a second reading of the clock:
    it is at least one second when that reading is still before the lockout
    time, zero when the lockout time was reached between the two readings
    (less than a second ago), and at most 300 when no more than five
    minutes remained. *)
Theorem locked_submission_only_counts_down :
  forall emailRegex now shown later clock resp w t,
    lockoutUntil (form w) = Some t -> now < t ->
    step emailRegex w (Submit now shown later clock resp)
    = on_form (fun s => setError (Some (TryAgainInSeconds (ceil_seconds (t - shown))))
                          (setSuccess None (setError None s))) w /\
    (shown < t -> 1 <= ceil_seconds (t - shown)) /\
    (t <= shown < t + 1000 -> ceil_seconds (t - shown) = 0) /\
    (t - shown <= 300000 -> ceil_seconds (t - shown) <= 300).
Proof.
  intros emailRegex now shown later clock resp w t Ht Hlt. split.
  - simpl. rewrite (handleSubmit_locked emailRegex now shown later resp w t Ht Hlt).
    unfold commit. simpl. rewrite bool_decide_eq_true_2 by reflexivity. reflexivity.
  - destruct (ceil_seconds_bounds (t - shown)) as (H1 & H0 & H300).
    split; [|split].
    + intros. apply H1. lia.
    + intros. apply H0. lia.
    + exact H300.
Qed.

(** A submission tested one millisecond before the lockout of the example
    ends, whose countdown reads the clock one millisecond after: "0
    seconds". *)
Lemma locked_submission_only_counts_down_witness :
  error (form (step emailRegex_3_23 after_five (Submit 305199 305201 305400 305410 refused)))
  = Some (TryAgainInSeconds 0).
Proof.
  destruct (locked_submission_only_counts_down emailRegex_3_23 305199 305201 305400 305410
              refused after_five 305200 eq_refl eq_refl) as (Hstep & _ & H0 & _).
  rewrite Hstep. simpl. rewrite H0 by lia. reflexivity.
Defined.

Lemma handleSubmit_lockout emailRegex now shown later resp w :
  lockoutUntil (form (handleSubmit emailRegex now shown later resp w)) = lockoutUntil (form w) \/
  lockoutUntil (form (handleSubmit emailRegex now shown later resp w)) = Some (later + 300000).
Proof.
  destruct (locked_out now (form w)) eqn:Hl.
  - left. unfold handleSubmit, bind, upd; simpl. rewrite Hl. reflexivity.
  - destruct (try_result emailRegex resp w) as [[]|e] eqn:Hr.
    + left. apply handleSubmit_success; assumption.
    + pose proof (handleSubmit_failure emailRegex now shown later resp w e Hl Hr)
        as (_ & Hlow & Hhigh).
      destruct (Z.lt_ge_cases (attempts (form w)) 4).
      * left. apply Hlow. assumption.
      * right. apply Hhigh. assumption.
Qed.

Lemma resend_keeps_lockout emailRegex clock resp w :
  step emailRegex w (Resend clock resp) = handleResendVerification resp w /\
  lockoutUntil (form (handleResendVerification resp w)) = lockoutUntil (form w) /\
  attempts (form (handleResendVerification resp w)) = attempts (form w).
Proof.
  assert (H : lockoutUntil (form (handleResendVerification resp w)) = lockoutUntil (form w) /\
              attempts (form (handleResendVerification resp w)) = attempts (form w)).
  { unfold handleResendVerification, try_catch_finally, bind, upd, await,
      resendVerification; simpl. destruct resp; simpl; auto. }
  split; [|exact H]. simpl. unfold commit.
  rewrite bool_decide_eq_true_2; [reflexivity|]. symmetry. apply H.
Qed.

(** X23. Once a lockout time has been stored it is never cleared again: the
    effect that would clear it and zero the counter runs only right after
    the time was stored, when it has not passed yet. *)
Theorem lockout_is_never_cleared :
  forall emailRegex es w,
    Forall prompt es ->
    is_Some (lockoutUntil (form w)) ->
    is_Some (lockoutUntil (form (run emailRegex w es))).
Proof.
  intros emailRegex es. unfold run.
  induction es as [|e es IH]; intros w Hes Hw; simpl; [exact Hw|].
  inversion Hes as [|? ? He Hes']; subst.
  apply IH; [assumption|].
  destruct e as [i| | |now shown later clock resp|clock resp]; try exact Hw.
  - simpl in He. rewrite (commit_keeps_counter emailRegex now shown later clock resp w He).
    destruct (handleSubmit_lockout emailRegex now shown later resp w) as [-> | ->]; eauto.
  - destruct (resend_keeps_lockout emailRegex clock resp w) as (-> & -> & _). exact Hw.
Qed.

(** After the five failures, a successful sign-in long after the window:
    the lockout time is still there. *)
Lemma lockout_is_never_cleared_witness :
  is_Some (lockoutUntil (form (run emailRegex_3_23 after_five
                                 [Submit 400000 400010 400200 400210 None]))).
Proof.
  apply (lockout_is_never_cleared emailRegex_3_23 [Submit 400000 400010 400200 400210 None]
           after_five).
  - constructor; [|constructor]. simpl. lia.
  - exists 305200. reflexivity.
Defined.

(** X24. Resending the verification email is outside the rate limit: it
    neither reads nor changes the counter and the lockout, also during a
    lockout.  When the service accepts, the store's flag is set and the
    confirmation shown; when it refuses, the store is unchanged and the
    refusal's message shown. *)
Theorem resend_is_not_rate_limited :
  forall emailRegex clock w,
    (forall resp,
       attempts (form (step emailRegex w (Resend clock resp))) = attempts (form w) /\
       lockoutUntil (form (step emailRegex w (Resend clock resp))) = lockoutUntil (form w) /\
       loading (form (step emailRegex w (Resend clock resp))) = false) /\
    verificationSent (store (step emailRegex w (Resend clock None))) = true /\
    success (form (step emailRegex w (Resend clock None)))
      = Some "Verification email has been resent!"%string /\
    (forall m,
       store (step emailRegex w (Resend clock (Some (ErrorOf m)))) = store w /\
       error (form (step emailRegex w (Resend clock (Some (ErrorOf m)))))
         = Some (Text m)).
Proof.
  intros emailRegex clock w. split; [|split; [|split]].
  - intros resp.
    destruct (resend_keeps_lockout emailRegex clock resp w) as (-> & Hl & Ha).
    repeat split; try assumption.
    unfold handleResendVerification, try_catch_finally, bind, upd, await,
      resendVerification; simpl. destruct resp; reflexivity.
  - destruct (resend_keeps_lockout emailRegex clock None w) as (-> & _). reflexivity.
  - destruct (resend_keeps_lockout emailRegex clock None w) as (-> & _). reflexivity.
  - intros m.
    destruct (resend_keeps_lockout emailRegex clock (Some (ErrorOf m)) w) as (-> & _).
    split; reflexivity.
Qed.

(** X25. A submission that completes zeroes the counter, clears the error
    and moves on: login navigates to "/", registration sets the store's
    verification flag and asks for the code, verification and password
    reset return to login.  None of them writes the store's user. *)
Theorem completed_submission_moves_on :
  forall emailRegex now shown later clock resp w,
    locked_out now (form w) = false ->
    try_result emailRegex resp w = inl tt ->
    let w' := step emailRegex w (Submit now shown later clock resp) in
    attempts (form w') = 0 /\ error (form w') = None /\ loading (form w') = false /\
    mode (form w') = match mode (form w) with register => verify | _ => login end /\
    path (form w') = match mode (form w) with login => Some "/"%string | _ => path (form w) end /\
    verificationSent (store w')
      = match mode (form w) with register => true | _ => verificationSent (store w) end /\
    user (store w') = user (store w).
Proof.
  intros emailRegex now shown later clock resp w Hl Hr w'. subst w'.
  simpl. unfold commit.
  rewrite bool_decide_eq_true_2
    by (symmetry; apply (handleSubmit_success emailRegex now shown later resp w Hl Hr)).
  unfold try_result in Hr. unfold handleSubmit. cbv zeta.
  destruct w as [[m i l e s a lu p] st]. simpl in *. rewrite Hl. revert Hr.
  open_submit. destruct m; simpl;
    split_cases; intros Hr; try discriminate; repeat split; reflexivity.
Qed.

(** The registration of the example. *)
Lemma completed_submission_moves_on_witness :
  mode (form (step emailRegex_3_23 registering (Submit 1000 1010 1200 1210 None))) = verify.
Proof.
  apply (completed_submission_moves_on emailRegex_3_23 1000 1010 1200 1210 None registering);
    reflexivity.
Defined.

End AuthFormExtras.

(** ** What the feed shows *)

Module FeedExtras.
Import Sql Database Home Feed FeedFacts RenderFacts Scenarios FeedScenario.

Lemma held_iff uid d posts p :
  p ∈ fetchPosts (serve None uid d fetchPosts_order) posts <->
  exists r, r ∈ Database.posts d /\ post_visible uid d r = true /\ p = project d r.
Proof.
  unfold fetchPosts, serve. simpl.
  rewrite list_elem_of_In, in_map_iff. split.
  - intros (r & <- & Hin).
    apply (Permutation_in _ (order_by_perm _ _)) in Hin.
    unfold select_posts in Hin. apply filter_In in Hin as [Hin Hvis].
    exists r. rewrite list_elem_of_In. auto.
  - intros (r & Hin & Hvis & ->). exists r. split; [reflexivity|].
    apply (Permutation_in _ (Permutation_sym (order_by_perm _ _))).
    unfold select_posts. apply filter_In. rewrite <- list_elem_of_In. auto.
Qed.

(** X26. After a fetch that succeeds the posts list of the component holds
    the posts the requester may read, all of them and no other.  Home
    renders that list exactly when the author of every post the requester
    may read has a non-empty avatar_url - then with one card per post, in
    order; when one author has none, the render throws and no post is
    shown. *)
Theorem feed_renders_only_with_avatars :
  forall date uid d posts,
    (forall p,
       p ∈ fetchPosts (serve None uid d fetchPosts_order) posts <->
       exists r, r ∈ Database.posts d /\ post_visible uid d r = true /\ p = project d r) /\
    (is_Some (render date (fetchPosts (serve None uid d fetchPosts_order) posts)) <->
     forall r, r ∈ Database.posts d -> post_visible uid d r = true ->
       exists author,
         embed_profile d r = Some author /\ truthy (avatar_url author) = true) /\
    match render date (fetchPosts (serve None uid d fetchPosts_order) posts) with
    | Some cards =>
        List.map card_key cards
        = List.map id (fetchPosts (serve None uid d fetchPosts_order) posts)
    | None => True
    end.
Proof.
  intros date uid d posts. split; [intros p; apply held_iff|]. split.
  - rewrite render_Some_iff. split.
    + intros Hall r Hin Hvis.
      apply (Hall (project d r)). apply held_iff. eauto.
    + intros Hall p Hp. apply held_iff in Hp as (r & Hin & Hvis & ->).
      apply Hall; assumption.
  - apply render_keys.
Qed.

(** The example timeline: its authors' profiles have no avatar, as every
    profile the trigger makes, and the feed does not render. *)
Lemma feed_renders_only_with_avatars_witness :
  render (fun _ => ""%string) (posts_after one_fetch) = None.
Proof.
  destruct (render (fun _ => ""%string) (posts_after one_fetch)) as [cards|] eqn:Hr;
    [|reflexivity].
  exfalso.
  destruct (proj1 (proj1 (proj2 (feed_renders_only_with_avatars
                                   (fun _ => ""%string) (Some alice) timeline [])))
              ltac:(unfold posts_after in Hr; simpl in Hr; simpl; rewrite Hr; eauto)
              (public_post 100 alice (Some 5%Z))
              ltac:(constructor) eq_refl)
    as (author & Hauthor & Htruthy).
  vm_compute in Hauthor. injection Hauthor as <-. discriminate.
Defined.

End FeedExtras.
